(** * The Mixpanel tracking module ([src/utils/mixpanel.ts])

    A shallow embedding of the initialisation / queueing / delivery logic of
    [1.0-mixpanel-implementation.ts], and the properties its specification
    states about it.

    The [mixpanel-browser] library is external to the repository: it is the
    "sink", modelled as an oracle that decides, from the calls it has received
    so far and the call being made, whether that call throws.  The module's
    globals, the [retries] variable of every [initMixpanel] closure, the
    pending [setTimeout] timers, the console and the calls received by the sink
    make up the state that every operation threads. *)

From Stdlib Require Import Ascii.
From stdpp Require Import base numbers list strings gmap.

Local Open Scope string_scope.
Local Open Scope list_scope.

(** ** JavaScript values held by payloads *)

(** Property values of an event payload ([props: any]).  Numbers cover the
    integers the helpers produce (durations, counts, positions) and [NaN]. *)
#[warnings="-register-all"]
Inductive JsValue : Type :=
  | JUndefined
  | JNull
  | JBool (b : bool)
  | JNum (n : Z)
  | JNaN
  | JStr (s : string)
  | JArr (l : list JsValue).

(** JavaScript truthiness, as used by [payload.timestamp || ...]. *)
Definition truthy (v : JsValue) : bool :=
  match v with
  | JUndefined | JNull | JNaN => false
  | JBool b => b
  | JNum n => negb (n =? 0)%Z
  | JStr s => negb (String.eqb s "")
  | JArr _ => true
  end.

(** An object used as a record of own enumerable properties. *)
Abbreviation Props := (gmap string JsValue).

(** Reading a property: a missing one reads as [undefined]. *)
Definition get_prop (o : Props) (k : string) : JsValue :=
  default JUndefined (o !! k).

(** [a || b] on values. *)
Definition js_or (a b : JsValue) : JsValue := if truthy a then a else b.

(** ** The event catalog *)

Inductive EventCategory : Type :=
  | USER_ENGAGEMENT
  | DECISION_FLOW
  | AI_INTERACTION
  | FEEDBACK
  | SESSION.

(** The string value of each enum member. *)
Definition category_value (c : EventCategory) : string :=
  match c with
  | USER_ENGAGEMENT => "User Engagement"
  | DECISION_FLOW => "Decision Flow"
  | AI_INTERACTION => "AI Interaction"
  | FEEDBACK => "Feedback"
  | SESSION => "Session"
  end.

(** [keyof MixpanelEventPayloads]. *)
Inductive EventName : Type :=
  | SessionStarted
  | SessionEnded
  | TimeBetweenSessions
  | DiscussionStarted
  | ProsAndConsGenerated
  | DecisionCompleted
  | AbandonedDiscussion
  | OpenedSummaryView
  | UserLeftAppMidway
  | AIInteracted
  | ClickedAIResponse
  | FeedbackButtonClicked
  | FeedbackSubmitted.

(** [eventName as string]. *)
Definition event_name_string (e : EventName) : string :=
  match e with
  | SessionStarted => "SessionStarted"
  | SessionEnded => "SessionEnded"
  | TimeBetweenSessions => "TimeBetweenSessions"
  | DiscussionStarted => "DiscussionStarted"
  | ProsAndConsGenerated => "ProsAndConsGenerated"
  | DecisionCompleted => "DecisionCompleted"
  | AbandonedDiscussion => "AbandonedDiscussion"
  | OpenedSummaryView => "OpenedSummaryView"
  | UserLeftAppMidway => "UserLeftAppMidway"
  | AIInteracted => "AIInteracted"
  | ClickedAIResponse => "ClickedAIResponse"
  | FeedbackButtonClicked => "FeedbackButtonClicked"
  | FeedbackSubmitted => "FeedbackSubmitted"
  end.

Definition EVENT_CATEGORIES (e : EventName) : EventCategory :=
  match e with
  | SessionStarted => SESSION
  | SessionEnded => SESSION
  | TimeBetweenSessions => SESSION
  | DiscussionStarted => DECISION_FLOW
  | ProsAndConsGenerated => DECISION_FLOW
  | DecisionCompleted => DECISION_FLOW
  | AbandonedDiscussion => DECISION_FLOW
  | OpenedSummaryView => DECISION_FLOW
  | UserLeftAppMidway => DECISION_FLOW
  | AIInteracted => AI_INTERACTION
  | ClickedAIResponse => AI_INTERACTION
  | FeedbackButtonClicked => FEEDBACK
  | FeedbackSubmitted => FEEDBACK
  end.

Definition MAX_QUEUE_SIZE : nat := 50.
Definition MAX_RETRIES : Z := 3.

(** ** The sink and the module state *)

(** The options object handed to [mixpanel.init]. *)
Record InitConfig : Type := mkInitConfig {
  cfg_debug : bool;
  cfg_ignore_dnt : bool;
  cfg_batch_requests : bool;
  cfg_api_host : string;
  cfg_persistence : string
}.

(** A call received by the [mixpanel] object.  [STrack] records whether a
    callback was handed over as third argument. *)
Inductive SinkCall : Type :=
  | SInit (token : string) (cfg : InitConfig)
  | SRegister (props : Props)
  | STrack (name : string) (props : Props) (with_callback : bool)
  | SIdentify (userId : string)
  | SPeopleSet (props : Props)
  | SReset.

(** A caller-supplied [() => void]: calling it returns or throws.  What the
    sink does with a callback it is handed is the sink's business; the state
    counts the calls this module makes. *)
Inductive Callback : Type :=
  | CbReturns
  | CbThrows.

(** Values that can be thrown. *)
Inductive Exn : Type :=
  | SinkExn (c : SinkCall)
  | CallbackExn.

(** An entry of [eventBackupQueue]. *)
Record QueuedEvent : Type := mkQueued {
  q_name : string;
  q_props : Props
}.

(** Console output, one constructor per message of the source. *)
Inductive ConsoleLine : Type :=
  | LogFlushing (n : nat)
  | ErrFlushFailed (name : string) (e : Exn)
  | LogInitAttempt (n : Z)
  | LogInitSuccess
  | ErrInitFailed (n : Z) (e : Exn)
  | ErrInitGaveUp (n : Z)
  | LogQueued (name : string)
  | LogTracking (name : string) (props : Props)
  | ErrTrackingFailed (name : string) (e : Exn)
  | WarnCannotIdentify
  | LogIdentified (userId : string) (props : Props)
  | ErrIdentifyFailed (e : Exn)
  | WarnCannotReset
  | LogReset
  | ErrResetFailed (e : Exn).

(** The variables captured by the [initialize] closure of one [initMixpanel]
    call. *)
Record InitClosure : Type := mkClosure {
  cl_token : string;
  cl_retries : Z
}.

(** A pending [setTimeout(initialize, delay)]; [tm_target] indexes the closure
    whose [initialize] it will run. *)
Record Timer : Type := mkTimer {
  tm_delay : Z;
  tm_target : nat
}.

Record State : Type := mkState {
  mixpanelDebugMode : bool;
  mixpanelInitialized : bool;
  eventBackupQueue : list QueuedEvent;
  closures : list InitClosure;
  timers : list Timer;
  sinkCalls : list SinkCall;
  console : list ConsoleLine;
  callbackRuns : nat
}.

(** The state when the module has just been loaded. *)
Definition initial : State :=
  {| mixpanelDebugMode := false;
     mixpanelInitialized := false;
     eventBackupQueue := [];
     closures := [];
     timers := [];
     sinkCalls := [];
     console := [];
     callbackRuns := 0 |}.

(** What the module reads from its surroundings: the behaviour of the
    [mixpanel] object and [navigator.userAgent]. *)
Record Env : Type := mkEnv {
  sink_throws : list SinkCall -> SinkCall -> bool;
  userAgent : string
}.

(** A reading of the clock: [new Date().toISOString()] and [Date.now()]. *)
Record Now : Type := mkNow {
  now_iso : string;
  now_ms : Z
}.

(** ** State and exceptions: the monad of the module's operations *)

(** How a piece of code ends: normally, by throwing, or (for the model of a
    loop only) by exhausting the iterations it was given. *)
Inductive Result (A : Type) : Type :=
  | Ok (a : A)
  | Throw (e : Exn)
  | OutOfFuel.
Arguments Ok {A} a.
Arguments Throw {A} e.
Arguments OutOfFuel {A}.

Definition M (A : Type) : Type := State -> Result A * State.

Definition ret {A} (a : A) : M A := fun s => (Ok a, s).

Definition bind {A B} (m : M A) (k : A -> M B) : M B :=
  fun s =>
    match m s with
    | (Ok a, s') => k a s'
    | (Throw e, s') => (Throw e, s')
    | (OutOfFuel, s') => (OutOfFuel, s')
    end.

(** Sequencing is written [x ← m; k] and [m ;; k]. *)
#[global] Instance M_ret : MRet M := @ret.
#[global] Instance M_bind : MBind M := fun A B k m => bind m k.

(** [try { body } catch (error) { handler }]. *)
Definition try_catch {A} (body : M A) (handler : Exn -> M A) : M A :=
  fun s =>
    match body s with
    | (Throw e, s') => handler e s'
    | r => r
    end.

Definition get : M State := fun s => (Ok s, s).
Definition modify (f : State -> State) : M unit := fun s => (Ok tt, f s).
Definition when (b : bool) (m : M unit) : M unit := if b then m else ret tt.

Definition set_debug (b : bool) (s : State) : State :=
  let '(mkState _ ini q cl tm sc co cb) := s in mkState b ini q cl tm sc co cb.
Definition set_initialized (b : bool) (s : State) : State :=
  let '(mkState d _ q cl tm sc co cb) := s in mkState d b q cl tm sc co cb.
Definition set_queue (q : list QueuedEvent) (s : State) : State :=
  let '(mkState d ini _ cl tm sc co cb) := s in mkState d ini q cl tm sc co cb.
Definition set_closures (cl : list InitClosure) (s : State) : State :=
  let '(mkState d ini q _ tm sc co cb) := s in mkState d ini q cl tm sc co cb.
Definition set_timers (tm : list Timer) (s : State) : State :=
  let '(mkState d ini q cl _ sc co cb) := s in mkState d ini q cl tm sc co cb.
Definition set_sinkCalls (sc : list SinkCall) (s : State) : State :=
  let '(mkState d ini q cl tm _ co cb) := s in mkState d ini q cl tm sc co cb.
Definition set_console (co : list ConsoleLine) (s : State) : State :=
  let '(mkState d ini q cl tm sc _ cb) := s in mkState d ini q cl tm sc co cb.
Definition set_callbackRuns (cb : nat) (s : State) : State :=
  let '(mkState d ini q cl tm sc co _) := s in mkState d ini q cl tm sc co cb.

(** [console.log], [console.warn] and [console.error] append a line. *)
Definition console_out (l : ConsoleLine) : M unit :=
  modify (fun s => set_console (console s ++ [l]) s).

(** A call of a method of the [mixpanel] object: the sink receives it, and
    the oracle says whether it throws. *)
Definition sink_call (env : Env) (c : SinkCall) : M unit :=
  fun s =>
    let s' := set_sinkCalls (sinkCalls s ++ [c]) s in
    if sink_throws env (sinkCalls s) c then (Throw (SinkExn c), s')
    else (Ok tt, s').

(** [callback()], made by this module. *)
Definition invoke (cb : Callback) : M unit :=
  fun s =>
    let s' := set_callbackRuns (S (callbackRuns s)) s in
    match cb with
    | CbReturns => (Ok tt, s')
    | CbThrows => (Throw CallbackExn, s')
    end.

(** [if (callback) callback();] *)
Definition invoke_opt (cb : option Callback) : M unit :=
  match cb with
  | Some c => invoke c
  | None => ret tt
  end.

(** ** [flushEventQueue] *)

(** The [while (eventBackupQueue.length > 0)] loop; [fuel] bounds the number
    of iterations, and the loop is run with the queue length as fuel.  The
    entry that [shift] returns from a non-empty queue is an object, so the
    [if (event)] test always passes. *)
Fixpoint flush_loop (env : Env) (fuel : nat) : M unit :=
  fun s =>
    match eventBackupQueue s with
    | [] => (Ok tt, s)
    | event :: rest =>
        match fuel with
        | O => (OutOfFuel, s)
        | S fuel' =>
            (modify (set_queue rest) ;;
             try_catch
               (sink_call env (STrack (q_name event) (q_props event) false))
               (fun error => console_out (ErrFlushFailed (q_name event) error)) ;;
             flush_loop env fuel') s
        end
    end.

Definition flushEventQueue (env : Env) : M unit :=
  s ← get;
  if negb (mixpanelInitialized s) || (length (eventBackupQueue s) =? 0)%nat
  then ret tt
  else
    when (mixpanelDebugMode s)
         (console_out (LogFlushing (length (eventBackupQueue s)))) ;;
    flush_loop env (length (eventBackupQueue s)).

(** ** [initMixpanel] *)

(** [/Mobi|Android/i.test(s)]: some position of [s] starts, letter case
    ignored, with [Mobi] or with [Android]. *)
Definition lower (c : ascii) : ascii :=
  let n := Ascii.nat_of_ascii c in
  if (65 <=? n)%nat && (n <=? 90)%nat then Ascii.ascii_of_nat (n + 32) else c.

Fixpoint starts_with_ci (p s : string) : bool :=
  match p, s with
  | EmptyString, _ => true
  | String a p', String b s' => Ascii.eqb (lower a) (lower b) && starts_with_ci p' s'
  | String _ _, EmptyString => false
  end.

Fixpoint test_ci (p s : string) : bool :=
  starts_with_ci p s ||
  match s with
  | EmptyString => false
  | String _ s' => test_ci p s'
  end.

Definition platform_of (ua : string) : string :=
  if test_ci "Mobi" ua || test_ci "Android" ua then "mobile" else "web".

Definition init_config (debug : bool) : InitConfig :=
  {| cfg_debug := debug;
     cfg_ignore_dnt := true;
     cfg_batch_requests := false;
     cfg_api_host := "https://api.mixpanel.com";
     cfg_persistence := "localStorage" |}.

(** The closure variables of the [i]-th [initMixpanel] call. *)
Definition closure_at (s : State) (i : nat) : InitClosure :=
  default (mkClosure "" 0) (closures s !! i).

(** [retries++] in closure [i]. *)
Definition incr_retries (i : nat) : M unit :=
  modify (fun s =>
    set_closures
      (<[i := mkClosure (cl_token (closure_at s i)) (cl_retries (closure_at s i) + 1)]>
         (closures s)) s).

(** [setTimeout(initialize, delay)] from closure [i]. *)
Definition setTimeout (i : nat) (delay : Z) : M unit :=
  modify (fun s => set_timers (timers s ++ [mkTimer delay i]) s).

(** The inner function [initialize] of the [i]-th [initMixpanel] call. *)
Definition initialize (env : Env) (i : nat) : M unit :=
  try_catch
    (s ← get;
     when (mixpanelDebugMode s)
          (console_out (LogInitAttempt (cl_retries (closure_at s i) + 1))) ;;
     sink_call env (SInit (cl_token (closure_at s i)) (init_config (mixpanelDebugMode s))) ;;
     let platform := platform_of (userAgent env) in
     sink_call env (SRegister {[ "platform" := JStr platform;
                                 "app_version" := JStr "1.0.0" ]}) ;;
     modify (set_initialized true) ;;
     s1 ← get;
     when (mixpanelDebugMode s1) (console_out LogInitSuccess) ;;
     flushEventQueue env)
    (fun error =>
       s ← get;
       console_out (ErrInitFailed (cl_retries (closure_at s i) + 1) error) ;;
       if (cl_retries (closure_at s i) <? MAX_RETRIES)%Z then
         incr_retries i ;;
         s' ← get;
         setTimeout i (1000 * 2 ^ cl_retries (closure_at s' i))
       else
         console_out (ErrInitGaveUp MAX_RETRIES)).

Definition initMixpanel (env : Env) (token : string) (debug : bool) : M unit :=
  modify (set_debug debug) ;;
  s ← get;
  let i := length (closures s) in
  modify (set_closures (closures s ++ [mkClosure token 0])) ;;
  initialize env i.

(** The event loop runs the [k]-th pending timer (nothing happens when there
    is no such timer). *)
Definition fire_timer (env : Env) (k : nat) : M unit :=
  s ← get;
  match timers s !! k with
  | None => ret tt
  | Some t =>
      modify (set_timers (delete k (timers s))) ;;
      initialize env (tm_target t)
  end.

(** ** [trackEvent], [identifyUser], [resetUser] *)

(** [{...payload, event_category: ..., timestamp: ...}] *)
Definition enrich (eventName : EventName) (payload : Props) (now : Now) : Props :=
  <["timestamp" := js_or (get_prop payload "timestamp") (JStr (now_iso now))]>
    (<["event_category" := JStr (category_value (EVENT_CATEGORIES eventName))]> payload).

Arguments enrich : simpl never.

Definition is_some {A} (o : option A) : bool :=
  match o with Some _ => true | None => false end.

Definition trackEvent (env : Env) (eventName : EventName) (payload : Props)
    (callback : option Callback) (now : Now) : M unit :=
  try_catch
    (let enrichedPayload := enrich eventName payload now in
     s ← get;
     if negb (mixpanelInitialized s) then
       (if (length (eventBackupQueue s) <? MAX_QUEUE_SIZE)%nat then
          modify (set_queue (eventBackupQueue s ++
                    [mkQueued (event_name_string eventName) enrichedPayload])) ;;
          when (mixpanelDebugMode s)
               (console_out (LogQueued (event_name_string eventName)))
        else ret tt) ;;
       invoke_opt callback
     else
       when (mixpanelDebugMode s)
            (console_out (LogTracking (event_name_string eventName) enrichedPayload)) ;;
       sink_call env (STrack (event_name_string eventName) enrichedPayload
                             (is_some callback)))
    (fun error =>
       console_out (ErrTrackingFailed (event_name_string eventName) error) ;;
       invoke_opt callback).

Definition identifyUser (env : Env) (userId : string)
    (userProperties : option Props) : M unit :=
  try_catch
    (s ← get;
     if negb (mixpanelInitialized s) then
       console_out WarnCannotIdentify
     else
       sink_call env (SIdentify userId) ;;
       match userProperties with
       | Some p => sink_call env (SPeopleSet p)
       | None => ret tt
       end ;;
       when (mixpanelDebugMode s)
            (console_out (LogIdentified userId (default ∅ userProperties))))
    (fun error => console_out (ErrIdentifyFailed error)).

Definition resetUser (env : Env) : M unit :=
  try_catch
    (s ← get;
     if negb (mixpanelInitialized s) then
       console_out WarnCannotReset
     else
       sink_call env SReset ;;
       when (mixpanelDebugMode s) (console_out LogReset))
    (fun error => console_out (ErrResetFailed error)).

(** ** Category helpers *)

Inductive UserType : Type :=
  | Authenticated
  | Guest.

Definition user_type_string (u : UserType) : string :=
  match u with
  | Authenticated => "Authenticated"
  | Guest => "Guest"
  end.

Module SessionEvents.
Definition trackSessionStart (env : Env) (userType : UserType) (now : Now) : M unit :=
  let platform := platform_of (userAgent env) in
  trackEvent env SessionStarted
    {[ "timestamp" := JStr (now_iso now);
       "user_type" := JStr (user_type_string userType);
       "platform" := JStr platform ]} None now.

Definition trackSessionEnd (env : Env) (startTime pagesVisited : Z) (now : Now) : M unit :=
  trackEvent env SessionEnded
    {[ "duration" := JNum (now_ms now - startTime);
       "pages_visited" := JNum pagesVisited ]} None now.
End SessionEvents.

Module DecisionEvents.
Definition trackDiscussionStart (env : Env) (decisionType : string) (now : Now) : M unit :=
  trackEvent env DiscussionStarted
    {[ "decision_type" := JStr decisionType;
       "timestamp" := JStr (now_iso now) ]} None now.

Definition trackDecisionComplete (env : Env) (decisionType : string)
    (startTime : Z) (wasHelpful : bool) (now : Now) : M unit :=
  trackEvent env DecisionCompleted
    {[ "decision_type" := JStr decisionType;
       "completion_time" := JNum (now_ms now - startTime);
       "was_helpful" := JBool wasHelpful ]} None now.

Definition trackSummaryView (env : Env) (fromStep : string) (now : Now) : M unit :=
  trackEvent env OpenedSummaryView {[ "from_step" := JStr fromStep ]} None now.

Definition trackAbandonedDiscussion (env : Env) (inactivityDuration : Z)
    (currentStep : string) (now : Now) : M unit :=
  trackEvent env AbandonedDiscussion
    {[ "inactivity_duration" := JNum inactivityDuration;
       "current_step" := JStr currentStep ]} None now.
End DecisionEvents.

Module AIEvents.
Definition trackAIInteraction (env : Env) (model actionType : string)
    (responseTime : Z) (now : Now) : M unit :=
  trackEvent env AIInteracted
    {[ "model" := JStr model;
       "action_type" := JStr actionType;
       "response_time" := JNum responseTime ]} None now.

Definition trackClickedResponse (env : Env) (model : string) (position : Z)
    (now : Now) : M unit :=
  trackEvent env ClickedAIResponse
    {[ "model" := JStr model; "position" := JNum position ]} None now.

Definition trackProsAndConsGenerated (env : Env) (models : list string)
    (elapsedTime : Z) (now : Now) : M unit :=
  trackEvent env ProsAndConsGenerated
    {[ "models_used" := JArr (JStr <$> models);
       "elapsed_time" := JNum elapsedTime ]} None now.
End AIEvents.

Module FeedbackEvents.
Definition trackFeedbackButtonClicked (env : Env) (now : Now) : M unit :=
  trackEvent env FeedbackButtonClicked ∅ None now.

Definition trackFeedbackSubmission (env : Env) (feedbackText : string)
    (now : Now) : M unit :=
  trackEvent env FeedbackSubmitted {[ "feedback_text" := JStr feedbackText ]} None now.
End FeedbackEvents.

(** ** Runs of the module *)

(** A call of one of the category helpers. *)
Inductive HelperCall : Type :=
  | TrackSessionStart (userType : UserType)
  | TrackSessionEnd (startTime pagesVisited : Z)
  | TrackDiscussionStart (decisionType : string)
  | TrackDecisionComplete (decisionType : string) (startTime : Z) (wasHelpful : bool)
  | TrackSummaryView (fromStep : string)
  | TrackAbandonedDiscussion (inactivityDuration : Z) (currentStep : string)
  | TrackAIInteraction (model actionType : string) (responseTime : Z)
  | TrackClickedResponse (model : string) (position : Z)
  | TrackProsAndConsGenerated (models : list string) (elapsedTime : Z)
  | TrackFeedbackButtonClicked
  | TrackFeedbackSubmission (feedbackText : string).

Definition call_helper (env : Env) (h : HelperCall) (now : Now) : M unit :=
  match h with
  | TrackSessionStart u => SessionEvents.trackSessionStart env u now
  | TrackSessionEnd st pv => SessionEvents.trackSessionEnd env st pv now
  | TrackDiscussionStart d => DecisionEvents.trackDiscussionStart env d now
  | TrackDecisionComplete d st w => DecisionEvents.trackDecisionComplete env d st w now
  | TrackSummaryView f => DecisionEvents.trackSummaryView env f now
  | TrackAbandonedDiscussion d c => DecisionEvents.trackAbandonedDiscussion env d c now
  | TrackAIInteraction m a r => AIEvents.trackAIInteraction env m a r now
  | TrackClickedResponse m p => AIEvents.trackClickedResponse env m p now
  | TrackProsAndConsGenerated ms e => AIEvents.trackProsAndConsGenerated env ms e now
  | TrackFeedbackButtonClicked => FeedbackEvents.trackFeedbackButtonClicked env now
  | TrackFeedbackSubmission t => FeedbackEvents.trackFeedbackSubmission env t now
  end.

(** What can happen to the module: a call of one of its exports by the host
    application, or the event loop running a pending retry timer. *)
Inductive Op : Type :=
  | OpInit (token : string) (debug : bool)
  | OpTimer (k : nat)
  | OpTrack (eventName : EventName) (payload : Props)
            (callback : option Callback) (now : Now)
  | OpIdentify (userId : string) (userProperties : option Props)
  | OpReset
  | OpHelper (h : HelperCall) (now : Now).

Definition exec (env : Env) (op : Op) : M unit :=
  match op with
  | OpInit token debug => initMixpanel env token debug
  | OpTimer k => fire_timer env k
  | OpTrack e p cb now => trackEvent env e p cb now
  | OpIdentify u p => identifyUser env u p
  | OpReset => resetUser env
  | OpHelper h now => call_helper env h now
  end.

(** The state after an operation (whatever its outcome: an exception that
    escapes does not undo what was done). *)
Definition step (env : Env) (s : State) (op : Op) : State := snd (exec env op s).

Definition run (env : Env) (ops : list Op) (s : State) : State :=
  foldl (step env) s ops.

(** ** Vocabulary of the statements *)

(** The [mixpanel.track] call that the drain makes for a queue entry. *)
Definition track_call (ev : QueuedEvent) : SinkCall :=
  STrack (q_name ev) (q_props ev) false.

(** The errors the drain of [q] logs when the sink has received [hist]. *)
Fixpoint flush_errors (env : Env) (hist : list SinkCall) (q : list QueuedEvent)
    : list ConsoleLine :=
  match q with
  | [] => []
  | ev :: rest =>
      (if sink_throws env hist (track_call ev)
       then [ErrFlushFailed (q_name ev) (SinkExn (track_call ev))] else []) ++
      flush_errors env (hist ++ [track_call ev]) rest
  end.

(** The state in which a drain of the whole queue ends. *)
Definition drained (env : Env) (s : State) : State :=
  set_console (console s ++ flush_errors env (sinkCalls s) (eventBackupQueue s))
    (set_sinkCalls (sinkCalls s ++ (track_call <$> eventBackupQueue s))
       (set_queue [] s)).

(** The two sink calls of an initialisation attempt of closure [i]. *)
Definition init_call (s : State) (i : nat) : SinkCall :=
  SInit (cl_token (closure_at s i)) (init_config (mixpanelDebugMode s)).

Definition register_call (env : Env) : SinkCall :=
  SRegister {[ "platform" := JStr (platform_of (userAgent env));
               "app_version" := JStr "1.0.0" ]}.

(** The exception, if any, that ends the [try] block of [initialize]: either
    [mixpanel.init] or [mixpanel.register] throws. *)
Definition attempt_error (env : Env) (s : State) (i : nat) : option Exn :=
  if sink_throws env (sinkCalls s) (init_call s i)
  then Some (SinkExn (init_call s i))
  else if sink_throws env (sinkCalls s ++ [init_call s i]) (register_call env)
       then Some (SinkExn (register_call env))
       else None.

(** The sink calls made by the [try] block up to the exception. *)
Definition attempt_calls (env : Env) (s : State) (i : nat) : list SinkCall :=
  if sink_throws env (sinkCalls s) (init_call s i)
  then [init_call s i]
  else [init_call s i; register_call env].

Definition attempt_log (s : State) (i : nat) : list ConsoleLine :=
  if mixpanelDebugMode s then [LogInitAttempt (cl_retries (closure_at s i) + 1)] else [].

(** The state the [catch] block of [initialize] is entered in. *)
Definition at_catch (env : Env) (s : State) (i : nat) : State :=
  set_sinkCalls (sinkCalls s ++ attempt_calls env s i)
    (set_console (console s ++ attempt_log s i) s).

(** The state the [catch] block leaves, entered in [s] with [error]. *)
Definition after_catch (s : State) (i : nat) (error : Exn) : State :=
  let r := cl_retries (closure_at s i) in
  let s1 := set_console (console s ++ [ErrInitFailed (r + 1) error]) s in
  if (r <? MAX_RETRIES)%Z then
    let s2 := set_closures (<[i := mkClosure (cl_token (closure_at s1 i)) (r + 1)]> (closures s1)) s1 in
    set_timers (timers s2 ++ [mkTimer (1000 * 2 ^ cl_retries (closure_at s2 i)) i]) s2
  else
    set_console (console s1 ++ [ErrInitGaveUp MAX_RETRIES]) s1.

(** The state a successful attempt is in when it calls [flushEventQueue]. *)
Definition at_flush (env : Env) (s : State) (i : nat) : State :=
  set_console (console s ++ attempt_log s i ++
               (if mixpanelDebugMode s then [LogInitSuccess] else []))
    (set_initialized true
       (set_sinkCalls (sinkCalls s ++ [init_call s i; register_call env]) s)).

Definition after_initialize (env : Env) (s : State) (i : nat) : State :=
  match attempt_error env s i with
  | Some e => after_catch (at_catch env s i) i e
  | None => snd (flushEventQueue env (at_flush env s i))
  end.

(** The event and the payload a helper call passes to [trackEvent]. *)
Definition helper_event (h : HelperCall) : EventName :=
  match h with
  | TrackSessionStart _ => SessionStarted
  | TrackSessionEnd _ _ => SessionEnded
  | TrackDiscussionStart _ => DiscussionStarted
  | TrackDecisionComplete _ _ _ => DecisionCompleted
  | TrackSummaryView _ => OpenedSummaryView
  | TrackAbandonedDiscussion _ _ => AbandonedDiscussion
  | TrackAIInteraction _ _ _ => AIInteracted
  | TrackClickedResponse _ _ => ClickedAIResponse
  | TrackProsAndConsGenerated _ _ => ProsAndConsGenerated
  | TrackFeedbackButtonClicked => FeedbackButtonClicked
  | TrackFeedbackSubmission _ => FeedbackSubmitted
  end.

Definition helper_payload (env : Env) (h : HelperCall) (now : Now) : Props :=
  match h with
  | TrackSessionStart u =>
      {[ "timestamp" := JStr (now_iso now);
         "user_type" := JStr (user_type_string u);
         "platform" := JStr (platform_of (userAgent env)) ]}
  | TrackSessionEnd st pv =>
      {[ "duration" := JNum (now_ms now - st); "pages_visited" := JNum pv ]}
  | TrackDiscussionStart d =>
      {[ "decision_type" := JStr d; "timestamp" := JStr (now_iso now) ]}
  | TrackDecisionComplete d st w =>
      {[ "decision_type" := JStr d;
         "completion_time" := JNum (now_ms now - st);
         "was_helpful" := JBool w ]}
  | TrackSummaryView f => {[ "from_step" := JStr f ]}
  | TrackAbandonedDiscussion d c =>
      {[ "inactivity_duration" := JNum d; "current_step" := JStr c ]}
  | TrackAIInteraction m a r =>
      {[ "model" := JStr m; "action_type" := JStr a; "response_time" := JNum r ]}
  | TrackClickedResponse m p => {[ "model" := JStr m; "position" := JNum p ]}
  | TrackProsAndConsGenerated ms e =>
      {[ "models_used" := JArr (JStr <$> ms); "elapsed_time" := JNum e ]}
  | TrackFeedbackButtonClicked => ∅
  | TrackFeedbackSubmission t => {[ "feedback_text" := JStr t ]}
  end.

(** The arguments with which an operation reaches [trackEvent], if it does. *)
Definition track_args (env : Env) (op : Op)
    : option (EventName * Props * option Callback * Now) :=
  match op with
  | OpTrack e p cb now => Some (e, p, cb, now)
  | OpHelper h now => Some (helper_event h, helper_payload env h now, None, now)
  | _ => None
  end.

(** The queue entry [trackEvent] builds. *)
Definition entry_of (e : EventName) (p : Props) (now : Now) : QueuedEvent :=
  mkQueued (event_name_string e) (enrich e p now).

(** The sink calls of [identifyUser] once the module is initialised. *)
Definition identify_calls (env : Env) (hist : list SinkCall) (userId : string)
    (userProperties : option Props) : list SinkCall :=
  if sink_throws env hist (SIdentify userId) then [SIdentify userId]
  else match userProperties with
       | Some p => [SIdentify userId; SPeopleSet p]
       | None => [SIdentify userId]
       end.

(** The initialisation attempt an operation starts, if any: the state it
    starts in and the closure whose [initialize] runs. *)
Definition attempt_of (s : State) (op : Op) : option (State * nat) :=
  match op with
  | OpInit token debug =>
      Some (set_closures (closures s ++ [mkClosure token 0]) (set_debug debug s),
            length (closures s))
  | OpTimer k =>
      match timers s !! k with
      | Some t => Some (set_timers (delete k (timers s)) s, tm_target t)
      | None => None
      end
  | _ => None
  end.

(** The four kinds of step. *)
Inductive StepKind (env : Env) (s : State) (op : Op) : Prop :=
  | StepAttempt s0 i :
      attempt_of s op = Some (s0, i) ->
      step env s op = after_initialize env s0 i ->
      StepKind env s op
  | StepIdle k :
      op = OpTimer k -> timers s !! k = None -> step env s op = s ->
      StepKind env s op
  | StepTrack e p cb now :
      track_args env op = Some (e, p, cb, now) ->
      step env s op = snd (trackEvent env e p cb now s) ->
      StepKind env s op
  | StepIdentify u props :
      op = OpIdentify u props ->
      StepKind env s op
  | StepReset :
      op = OpReset ->
      StepKind env s op.

(** The events that have reached [mixpanel.track], in order. *)
Definition as_event (c : SinkCall) : option QueuedEvent :=
  match c with
  | STrack name props _ => Some (mkQueued name props)
  | _ => None
  end.

Definition delivered (s : State) : list QueuedEvent := omap as_event (sinkCalls s).

(** The events the [trackEvent] calls of a run were made for, in order. *)
Definition tracked_op (env : Env) (op : Op) : option QueuedEvent :=
  match track_args env op with
  | Some (e, p, _, now) => Some (entry_of e p now)
  | None => None
  end.

Definition tracked (env : Env) (ops : list Op) : list QueuedEvent :=
  omap (tracked_op env) ops.

(** Concrete surroundings used in examples: a sink none of whose operations
    throws. *)
Definition sink_ok : Env :=
  {| sink_throws := fun _ _ => false; userAgent := "Mozilla/5.0 (X11; Linux x86_64)" |}.

(** A sink whose [init] always throws. *)
Definition sink_init_fails : Env :=
  {| sink_throws := fun _ c => match c with SInit _ _ => true | _ => false end;
     userAgent := "Mozilla/5.0 (X11; Linux x86_64)" |}.

(** A sink every operation of which throws, except [init] and [register]. *)
Definition sink_ops_fail : Env :=
  {| sink_throws := fun _ c =>
       match c with SInit _ _ | SRegister _ => false | _ => true end;
     userAgent := "Mozilla/5.0 (Linux; Android 14) Mobile" |}.

Definition noon : Now := {| now_iso := "2025-03-01T12:00:00.000Z"; now_ms := 1740830400000 |}.

(** The state [initMixpanel "token" false] starts its first attempt in. *)
Definition first_attempt_state : State :=
  set_closures [mkClosure "token" 0] initial.

(** A sink call with the [debug] option of an [init] configuration blanked. *)
Definition erase_debug (c : SinkCall) : SinkCall :=
  match c with
  | SInit token cfg =>
      SInit token (mkInitConfig false (cfg_ignore_dnt cfg) (cfg_batch_requests cfg)
                                (cfg_api_host cfg) (cfg_persistence cfg))
  | _ => c
  end.

(** The sink does not let the [debug] option decide whether a call throws. *)
Definition debug_blind (env : Env) : Prop :=
  forall (h1 h2 : list SinkCall) (c1 c2 : SinkCall),
    erase_debug <$> h1 = erase_debug <$> h2 ->
    erase_debug c1 = erase_debug c2 ->
    sink_throws env h1 c1 = sink_throws env h2 c2.

(** Two operations that differ at most in the [debug] argument of
    [initMixpanel]. *)
Definition same_up_to_debug (op1 op2 : Op) : Prop :=
  match op1, op2 with
  | OpInit t1 _, OpInit t2 _ => t1 = t2
  | _, _ => op1 = op2
  end.

(** Two states that differ at most in the debug flag, the console and the
    [debug] options the sink was given. *)
Record agree (s1 s2 : State) : Prop := mkAgree {
  agree_initialized : mixpanelInitialized s1 = mixpanelInitialized s2;
  agree_queue : eventBackupQueue s1 = eventBackupQueue s2;
  agree_closures : closures s1 = closures s2;
  agree_timers : timers s1 = timers s2;
  agree_callbackRuns : callbackRuns s1 = callbackRuns s2;
  agree_sinkCalls : erase_debug <$> sinkCalls s1 = erase_debug <$> sinkCalls s2
}.

Definition is_init_call (c : SinkCall) : bool :=
  match c with SInit _ _ => true | _ => false end.

(** The calls the sink has received other than [init]: the [register],
    [track], [identify], [people.set] and [reset] calls, in order. *)
Definition tracking_calls (s : State) : list SinkCall :=
  List.filter (fun c => negb (is_init_call c)) (sinkCalls s).

(** The number of [mixpanel.init] calls made so far. *)
Definition init_attempts (s : State) : nat :=
  length (List.filter is_init_call (sinkCalls s)).

Definition is_init_op (op : Op) : bool :=
  match op with OpInit _ _ => true | _ => false end.

(** The number of [initMixpanel] calls of a run. *)
Definition n_inits (ops : list Op) : nat := length (List.filter is_init_op ops).

Definition init_always_fails (env : Env) : Prop :=
  forall hist token cfg, sink_throws env hist (SInit token cfg) = true.

Definition total_retries (cl : list InitClosure) : Z :=
  foldr (fun c acc => (cl_retries c + acc)%Z) 0%Z cl.

(** What holds of every state while no attempt has succeeded, when every
    attempt fails: a closure with a pending retry has made as many attempts
    as its counter says (between 1 and 3), one without has its counter at 3
    and has made 4. *)
Record Stuck (s : State) : Prop := mkStuck {
  stuck_flag : mixpanelInitialized s = false;
  stuck_calls : Forall (fun c => is_init_call c = true) (sinkCalls s);
  stuck_nodup : NoDup (tm_target <$> timers s);
  stuck_pending :
    forall i, i ∈ tm_target <$> timers s ->
      exists c, closures s !! i = Some c /\ (1 <= cl_retries c <= 3)%Z;
  stuck_idle :
    forall i c, closures s !! i = Some c -> i ∉ tm_target <$> timers s ->
      cl_retries c = 3%Z;
  stuck_count :
    (Z.of_nat (length (sinkCalls s)) + Z.of_nat (length (timers s)) =
     total_retries (closures s) + Z.of_nat (length (closures s)))%Z
}.

(** The same, at the start of an attempt of closure [i]. *)
Record Running (s : State) (i : nat) : Prop := mkRunning {
  running_flag : mixpanelInitialized s = false;
  running_calls : Forall (fun c => is_init_call c = true) (sinkCalls s);
  running_nodup : NoDup (tm_target <$> timers s);
  running_self : i ∉ tm_target <$> timers s;
  running_closure :
    exists c, closures s !! i = Some c /\ (0 <= cl_retries c <= 3)%Z;
  running_pending :
    forall j, j ∈ tm_target <$> timers s ->
      exists c, closures s !! j = Some c /\ (1 <= cl_retries c <= 3)%Z;
  running_idle :
    forall j c, j <> i -> closures s !! j = Some c -> j ∉ tm_target <$> timers s ->
      cl_retries c = 3%Z;
  running_count :
    (Z.of_nat (length (sinkCalls s)) + Z.of_nat (length (timers s)) + 1 =
     total_retries (closures s) + Z.of_nat (length (closures s)))%Z
}.

(** ** Further vocabulary *)

(** The calls an initialisation attempt makes. *)
Definition is_setup_call (c : SinkCall) : bool :=
  match c with SInit _ _ | SRegister _ => true | _ => false end.

(** The calls that carry a user identity. *)
Definition is_identity_call (c : SinkCall) : bool :=
  match c with SIdentify _ | SPeopleSet _ | SReset => true | _ => false end.

(** The console lines written only in debug mode ([console.log]). *)
Definition is_debug_line (l : ConsoleLine) : bool :=
  match l with
  | LogFlushing _ | LogInitAttempt _ | LogInitSuccess | LogQueued _
  | LogTracking _ _ | LogIdentified _ _ | LogReset => true
  | _ => false
  end.

(** Two states that differ at most in what has been written to the console. *)
Record same_but_console (s1 s2 : State) : Prop := mkSameButConsole {
  sbc_debug : mixpanelDebugMode s1 = mixpanelDebugMode s2;
  sbc_initialized : mixpanelInitialized s1 = mixpanelInitialized s2;
  sbc_queue : eventBackupQueue s1 = eventBackupQueue s2;
  sbc_closures : closures s1 = closures s2;
  sbc_timers : timers s1 = timers s2;
  sbc_sinkCalls : sinkCalls s1 = sinkCalls s2;
  sbc_callbackRuns : callbackRuns s1 = callbackRuns s2
}.

(** An [identifyUser] or [resetUser] call. *)
Definition is_identity_op (op : Op) : bool :=
  match op with OpIdentify _ _ | OpReset => true | _ => false end.

(** Whether a callback was supplied that throws when called. *)
Definition callback_throws (cb : option Callback) : bool :=
  match cb with Some CbThrows => true | _ => false end.

(** What holds of the retry machinery in every reachable state, whatever the
    sink does: a closure has at most one pending retry, its counter stays
    between 0 and [MAX_RETRIES], a pending retry was scheduled with the delay
    its counter gives, and the attempts made add up to the counters plus one
    for each closure that has no retry pending. *)
Record Bounded (s : State) : Prop := mkBounded {
  bounded_nodup : NoDup (tm_target <$> timers s);
  bounded_pending :
    forall t, t ∈ timers s ->
      exists c, closures s !! tm_target t = Some c /\
                (1 <= cl_retries c <= 3)%Z /\
                tm_delay t = (1000 * 2 ^ cl_retries c)%Z;
  bounded_retries : Forall (fun c => (0 <= cl_retries c <= 3)%Z) (closures s);
  bounded_count :
    (Z.of_nat (init_attempts s) + Z.of_nat (length (timers s)) =
     total_retries (closures s) + Z.of_nat (length (closures s)))%Z
}.

(** The same, at the start of an attempt of closure [i]. *)
Record Attempting (s : State) (i : nat) : Prop := mkAttempting {
  attempting_nodup : NoDup (tm_target <$> timers s);
  attempting_self : i ∉ tm_target <$> timers s;
  attempting_closure : is_Some (closures s !! i);
  attempting_pending :
    forall t, t ∈ timers s ->
      exists c, closures s !! tm_target t = Some c /\
                (1 <= cl_retries c <= 3)%Z /\
                tm_delay t = (1000 * 2 ^ cl_retries c)%Z;
  attempting_retries : Forall (fun c => (0 <= cl_retries c <= 3)%Z) (closures s);
  attempting_count :
    (Z.of_nat (init_attempts s) + Z.of_nat (length (timers s)) + 1 =
     total_retries (closures s) + Z.of_nat (length (closures s)))%Z
}.

(** A sink whose [init] throws on its first [k] calls and returns from then
    on, and whose [register] never throws. *)
Definition recovers_after (k : nat) (env : Env) : Prop :=
  (forall hist token cfg,
     sink_throws env hist (SInit token cfg) =
     (length (List.filter is_init_call hist) <? k)%nat) /\
  (forall hist props, sink_throws env hist (SRegister props) = false).

Definition sink_recovers_after (k : nat) : Env :=
  {| sink_throws := fun hist c =>
       match c with
       | SInit _ _ => (length (List.filter is_init_call hist) <? k)%nat
       | _ => false
       end;
     userAgent := "Mozilla/5.0 (iPhone; CPU iPhone OS 17_0) Mobile/15E148" |}.

(** A call made by the host application other than [initMixpanel]. *)
Definition is_caller_op (op : Op) : bool :=
  match op with OpInit _ _ | OpTimer _ => false | _ => true end.

(** A string with its ASCII capitals turned into small letters. *)
Fixpoint lower_string (s : string) : string :=
  match s with
  | EmptyString => EmptyString
  | String c s' => String (lower c) (lower_string s')
  end.

(** [w] occurs in [s], letter case ignored. *)
Definition occurs_ci (w s : string) : Prop :=
  exists pre m post,
    s = String.append pre (String.append m post) /\ lower_string m = lower_string w.

(** An [initMixpanel] call that switches debug mode on. *)
Definition enables_debug (op : Op) : bool :=
  match op with OpInit _ true => true | _ => false end.

(** The events the module has accepted: those handed to the sink, followed
    by those waiting in the queue. *)
Definition pipeline (s : State) : list QueuedEvent :=
  delivered s ++ eventBackupQueue s.

(** The start-up effect of the host application, as the README sets it up:
    [initMixpanel(TOKEN, true)], then [trackSessionStart] with a user type
    read from [localStorage.getItem('user_id')] (a string or [null], the
    empty string being falsy); it returns the [startTime], a reading of
    [Date.now()], that the unload handler captures. *)
Definition user_type_of (user_id : option string) : UserType :=
  match user_id with
  | Some id => if String.eqb id "" then Guest else Authenticated
  | None => Guest
  end.

Definition app_effect (env : Env) (token : string) (user_id : option string)
    (now : Now) (startTime : Z) : M Z :=
  initMixpanel env token true ;;
  SessionEvents.trackSessionStart env (user_type_of user_id) now ;;
  mret startTime.

(** The [beforeunload] handler the start-up effect installs. *)
Definition handleUnload (env : Env) (startTime historyLength : Z) (now : Now) : M unit :=
  SessionEvents.trackSessionEnd env startTime historyLength now.

(** ** Symbolic execution of the operations *)

(** Unfolding of the monad and of the state setters. *)
Ltac unfold_m :=
  unfold mbind, M_bind, bind, mret, M_ret, ret, get, modify, when, try_catch,
    console_out, sink_call, invoke_opt, invoke, incr_retries, setTimeout in *.

Ltac simpl_state := simpl in *.

Ltac run_m := repeat progress (unfold_m; simpl_state).

Lemma flush_loop_eq (env : Env) (fuel : nat) :
  forall s : State,
    length (eventBackupQueue s) <= fuel ->
    flush_loop env fuel s = (Ok tt, drained env s).
Proof.
  induction fuel as [|fuel IH]; intros [d ini q cl tm sc co cb] Hlen;
    destruct q as [|ev rest]; simpl in Hlen; try lia.
  - unfold drained; simpl_state. by rewrite !app_nil_r.
  - unfold drained; simpl_state. by rewrite !app_nil_r.
  - simpl. unfold_m. fold (track_call ev). simpl_state.
    unfold drained; simpl_state.
    destruct (sink_throws env sc (track_call ev)); simpl;
      (rewrite IH; [|simpl; lia]); unfold drained; simpl_state;
      by rewrite <- !app_assoc.
Qed.

Lemma flushEventQueue_eq (env : Env) (s : State) :
  flushEventQueue env s =
  if negb (mixpanelInitialized s) || (length (eventBackupQueue s) =? 0)%nat
  then (Ok tt, s)
  else (Ok tt,
        drained env
          (if mixpanelDebugMode s
           then set_console (console s ++ [LogFlushing (length (eventBackupQueue s))]) s
           else s)).
Proof.
  unfold flushEventQueue. unfold_m.
  destruct (negb (mixpanelInitialized s) || (length (eventBackupQueue s) =? 0)%nat);
    [done|].
  destruct s as [[] ini q cl tm sc co cb]; simpl_state;
    by rewrite flush_loop_eq.
Qed.

Arguments flushEventQueue : simpl never.

Arguments register_call : simpl never.

Lemma initialize_eq (env : Env) (i : nat) (s : State) :
  initialize env i s = (Ok tt, after_initialize env s i).
Proof.
  unfold after_initialize, attempt_error, at_catch, attempt_calls, at_flush,
    after_catch, attempt_log, initialize, init_call, closure_at.
  destruct s as [d ini q cl tm sc co cb]; run_m.
  fold (register_call env).
  destruct d; run_m;
    destruct (sink_throws env sc _) eqn:E1; run_m;
    try (destruct (sink_throws env (sc ++ [_]) _) eqn:E2; run_m);
    try (destruct (_ <? MAX_RETRIES)%Z; run_m; unfold closure_at; simpl).
  all: rewrite <- ?app_assoc, ?app_nil_r; simpl; try reflexivity.
  all: rewrite flushEventQueue_eq; simpl; destruct q; simpl;
    rewrite ?app_nil_r; reflexivity.
Qed.

Lemma initMixpanel_eq (env : Env) (token : string) (debug : bool) (s : State) :
  initMixpanel env token debug s =
  (Ok tt,
   after_initialize env
     (set_closures (closures s ++ [mkClosure token 0]) (set_debug debug s))
     (length (closures s))).
Proof.
  unfold initMixpanel. unfold_m. destruct s; simpl. by rewrite initialize_eq.
Qed.

Lemma fire_timer_eq (env : Env) (k : nat) (s : State) :
  fire_timer env k s =
  match timers s !! k with
  | None => (Ok tt, s)
  | Some t =>
      (Ok tt, after_initialize env (set_timers (delete k (timers s)) s) (tm_target t))
  end.
Proof.
  unfold fire_timer. unfold_m. destruct (timers s !! k); [|done].
  by rewrite initialize_eq.
Qed.

Lemma call_helper_eq (env : Env) (h : HelperCall) (now : Now) :
  call_helper env h now =
  trackEvent env (helper_event h) (helper_payload env h now) None now.
Proof. by destruct h. Qed.

(** The state [trackEvent] leaves behind, field by field. *)
Lemma trackEvent_state (env : Env) e p cb now (s : State) :
  let s' := snd (trackEvent env e p cb now s) in
  mixpanelDebugMode s' = mixpanelDebugMode s /\
  mixpanelInitialized s' = mixpanelInitialized s /\
  closures s' = closures s /\
  timers s' = timers s /\
  eventBackupQueue s' =
    (if negb (mixpanelInitialized s) &&
        (length (eventBackupQueue s) <? MAX_QUEUE_SIZE)%nat
     then (eventBackupQueue s ++ [entry_of e p now])%list
     else eventBackupQueue s) /\
  sinkCalls s' =
    (if mixpanelInitialized s
     then (sinkCalls s ++
           [STrack (event_name_string e) (enrich e p now) (is_some cb)])%list
     else sinkCalls s).
Proof.
  unfold trackEvent, entry_of.
  destruct s as [d ini q cl tm sc co cbr]; run_m.
  destruct ini; run_m.
  - destruct d; run_m; destruct (sink_throws env sc _); run_m;
      destruct cb as [[]|]; run_m; done.
  - destruct (length q <? MAX_QUEUE_SIZE)%nat; run_m;
      destruct d; run_m; destruct cb as [[]|]; run_m; done.
Qed.

(** [trackEvent] ends normally unless the caller's callback throws. *)
Lemma trackEvent_result (env : Env) e p cb now (s : State) :
  cb <> Some CbThrows ->
  fst (trackEvent env e p cb now s) = Ok tt.
Proof.
  intros Hcb. unfold trackEvent.
  destruct s as [d ini q cl tm sc co cbr]; run_m.
  destruct ini; run_m.
  - destruct d; run_m; destruct (sink_throws env sc _); run_m;
      destruct cb as [[]|]; run_m; done.
  - destruct (length q <? MAX_QUEUE_SIZE)%nat; run_m;
      destruct d; run_m; destruct cb as [[]|]; run_m; done.
Qed.

Lemma identifyUser_state (env : Env) u props (s : State) :
  let s' := snd (identifyUser env u props s) in
  fst (identifyUser env u props s) = Ok tt /\
  mixpanelDebugMode s' = mixpanelDebugMode s /\
  mixpanelInitialized s' = mixpanelInitialized s /\
  closures s' = closures s /\
  timers s' = timers s /\
  eventBackupQueue s' = eventBackupQueue s /\
  callbackRuns s' = callbackRuns s /\
  sinkCalls s' =
    (if mixpanelInitialized s
     then (sinkCalls s ++ identify_calls env (sinkCalls s) u props)%list
     else sinkCalls s).
Proof.
  unfold identifyUser, identify_calls.
  destruct s as [d ini q cl tm sc co cbr]; run_m.
  destruct ini; run_m; [|done].
  destruct (sink_throws env sc _); run_m; [done|].
  destruct props as [p|]; run_m.
  - destruct (sink_throws env _ _); run_m; destruct d; run_m;
      by rewrite <- ?app_assoc.
  - destruct d; run_m; done.
Qed.

Lemma resetUser_state (env : Env) (s : State) :
  let s' := snd (resetUser env s) in
  fst (resetUser env s) = Ok tt /\
  mixpanelDebugMode s' = mixpanelDebugMode s /\
  mixpanelInitialized s' = mixpanelInitialized s /\
  closures s' = closures s /\
  timers s' = timers s /\
  eventBackupQueue s' = eventBackupQueue s /\
  callbackRuns s' = callbackRuns s /\
  sinkCalls s' =
    (if mixpanelInitialized s then (sinkCalls s ++ [SReset])%list else sinkCalls s).
Proof.
  unfold resetUser.
  destruct s as [d ini q cl tm sc co cbr]; run_m.
  destruct ini; run_m; [|done].
  destruct (sink_throws env sc _); run_m; destruct d; run_m; done.
Qed.

(** A failed attempt: the flag and the queue are untouched, and the [catch]
    block either schedules a retry or gives up. *)
Lemma after_initialize_fail (env : Env) (s : State) (i : nat) (e : Exn) :
  attempt_error env s i = Some e ->
  let s' := after_initialize env s i in
  let r := cl_retries (closure_at s i) in
  mixpanelDebugMode s' = mixpanelDebugMode s /\
  mixpanelInitialized s' = mixpanelInitialized s /\
  eventBackupQueue s' = eventBackupQueue s /\
  callbackRuns s' = callbackRuns s /\
  sinkCalls s' = (sinkCalls s ++ attempt_calls env s i)%list /\
  closures s' =
    (if (r <? MAX_RETRIES)%Z
     then <[i := mkClosure (cl_token (closure_at s i)) (r + 1)]> (closures s)
     else closures s) /\
  timers s' =
    (if (r <? MAX_RETRIES)%Z
     then (timers s ++
           [mkTimer (1000 * 2 ^ cl_retries
               (default (mkClosure "" 0)
                  (<[i := mkClosure (cl_token (closure_at s i)) (r + 1)]> (closures s) !! i)))
              i])%list
     else timers s).
Proof.
  intros He. unfold after_initialize. rewrite He.
  unfold after_catch, at_catch, closure_at.
  destruct s as [d ini q cl tm sc co cbr]; simpl_state.
  destruct (_ <? MAX_RETRIES)%Z; simpl_state; done.
Qed.

(** A successful attempt: the flag is set and the whole queue is handed to
    [mixpanel.track], in order. *)
Lemma after_initialize_ok (env : Env) (s : State) (i : nat) :
  attempt_error env s i = None ->
  let s' := after_initialize env s i in
  mixpanelDebugMode s' = mixpanelDebugMode s /\
  mixpanelInitialized s' = true /\
  eventBackupQueue s' = [] /\
  callbackRuns s' = callbackRuns s /\
  sinkCalls s' =
    (sinkCalls s ++ [init_call s i; register_call env] ++
     (track_call <$> eventBackupQueue s))%list /\
  closures s' = closures s /\
  timers s' = timers s.
Proof.
  intros He. unfold after_initialize. rewrite He.
  rewrite flushEventQueue_eq. unfold at_flush, drained.
  destruct s as [d ini q cl tm sc co cbr]; simpl_state.
  destruct q as [|ev q]; simpl_state.
  - rewrite ?app_nil_r. done.
  - destruct d; simpl_state; rewrite <- ?app_assoc; done.
Qed.

(** ** Steps *)

Lemma step_kind (env : Env) (s : State) (op : Op) : StepKind env s op.
Proof.
  destruct op as [token debug|k|e p cb now|u props| |h now].
  - eapply StepAttempt; [reflexivity|].
    unfold step; simpl. by rewrite initMixpanel_eq.
  - destruct (timers s !! k) as [t|] eqn:Ht.
    + eapply StepAttempt; [simpl; by rewrite Ht|].
      unfold step; simpl. by rewrite fire_timer_eq, Ht.
    + eapply StepIdle; [done..|].
      unfold step; simpl. by rewrite fire_timer_eq, Ht.
  - by eapply StepTrack.
  - by eapply StepIdentify.
  - by eapply StepReset.
  - eapply StepTrack; [reflexivity|].
    unfold step; simpl. by rewrite call_helper_eq.
Qed.

(** What an attempt's start state shares with the state before it. *)
Lemma attempt_of_frame (s : State) (op : Op) (s0 : State) (i : nat) :
  attempt_of s op = Some (s0, i) ->
  mixpanelInitialized s0 = mixpanelInitialized s /\
  eventBackupQueue s0 = eventBackupQueue s /\
  sinkCalls s0 = sinkCalls s /\
  callbackRuns s0 = callbackRuns s.
Proof.
  destruct op; simpl; try done.
  - intros [= <- <-]. by destruct s.
  - destruct (timers s !! k); [|done]. intros [= <- <-]. by destruct s.
Qed.

Arguments initMixpanel : simpl never.
Arguments fire_timer : simpl never.
Arguments trackEvent : simpl never.
Arguments identifyUser : simpl never.
Arguments resetUser : simpl never.
Arguments call_helper : simpl never.
Arguments after_initialize : simpl never.
Arguments helper_payload : simpl never.

Lemma as_event_track_calls (q : list QueuedEvent) :
  omap as_event (track_call <$> q) = q.
Proof.
  induction q as [|[n p] q IH]; [done|].
  rewrite fmap_cons. simpl. f_equal. exact IH.
Qed.

Lemma as_event_attempt_calls (env : Env) (s : State) (i : nat) :
  omap as_event (attempt_calls env s i) = [].
Proof. unfold attempt_calls. by destruct (sink_throws env _ _). Qed.

Lemma as_event_identify_calls (env : Env) hist u props :
  omap as_event (identify_calls env hist u props) = [].
Proof.
  unfold identify_calls. destruct (sink_throws env _ _); [done|].
  by destruct props.
Qed.

Lemma attempt_of_not_tracked (env : Env) (s : State) (op : Op) (a : State * nat) :
  attempt_of s op = Some a -> tracked_op env op = None.
Proof. by destruct op. Qed.

Lemma run_snoc (env : Env) (ops : list Op) (op : Op) (s : State) :
  run env (ops ++ [op]) s = step env (run env ops s) op.
Proof. unfold run. by rewrite foldl_app. Qed.

Lemma tracked_snoc (env : Env) (ops : list Op) (op : Op) :
  tracked env (ops ++ [op]) =
  (tracked env ops ++ match tracked_op env op with Some ev => [ev] | None => [] end)%list.
Proof.
  unfold tracked. rewrite omap_app. simpl. by destruct (tracked_op env op).
Qed.

(** How one step changes the readiness flag, the queue and the delivered
    events. *)
Lemma step_effect (env : Env) (s : State) (op : Op) :
  (mixpanelInitialized s = true -> eventBackupQueue s = []) ->
  let s' := step env s op in
  (* the flag was set and stays set: a tracked event is sent directly *)
  (mixpanelInitialized s = true /\ mixpanelInitialized s' = true /\
   eventBackupQueue s' = eventBackupQueue s /\
   delivered s' =
     (delivered s ++ match tracked_op env op with Some ev => [ev] | None => [] end)%list)
  \/
  (* the flag is not set and stays so: a tracked event goes to the queue if
     there is room *)
  (mixpanelInitialized s = false /\ mixpanelInitialized s' = false /\
   delivered s' = delivered s /\
   eventBackupQueue s' =
     match tracked_op env op with
     | Some ev =>
         if (length (eventBackupQueue s) <? MAX_QUEUE_SIZE)%nat
         then (eventBackupQueue s ++ [ev])%list else eventBackupQueue s
     | None => eventBackupQueue s
     end)
  \/
  (* the step is the successful initialisation: the queue is drained *)
  (mixpanelInitialized s = false /\ mixpanelInitialized s' = true /\
   tracked_op env op = None /\
   eventBackupQueue s' = [] /\
   delivered s' = (delivered s ++ eventBackupQueue s)%list).
Proof.
  intros Hempty s'. subst s'. unfold delivered.
  destruct (step_kind env s op) as [s0 i Ha Hs|k -> Hk Hs|e p cb now Ha Hs|u props ->| ->].
  - pose proof (attempt_of_not_tracked env _ _ _ Ha) as Ht.
    destruct (attempt_of_frame _ _ _ _ Ha) as (Hi & Hq & Hc & _).
    rewrite Hs, Ht. destruct (attempt_error env s0 i) as [e|] eqn:He.
    + destruct (after_initialize_fail _ _ _ _ He) as (_ & Hi' & Hq' & _ & Hc' & _).
      rewrite Hi', Hq', Hc'. rewrite Hi, Hq, Hc.
      rewrite omap_app, as_event_attempt_calls, !app_nil_r.
      destruct (mixpanelInitialized s); [left|right; left]; done.
    + destruct (after_initialize_ok _ _ _ He) as (_ & Hi' & Hq' & _ & Hc' & _).
      rewrite Hi', Hq', Hc'. rewrite Hq, Hc.
      rewrite !omap_app, as_event_track_calls. simpl.
      destruct (mixpanelInitialized s) eqn:Hini.
      * left. rewrite (Hempty eq_refl), app_nil_r. done.
      * right; right. done.
  - rewrite Hs. simpl. rewrite app_nil_r.
    destruct (mixpanelInitialized s); [left|right; left]; done.
  - unfold tracked_op. rewrite Ha, Hs.
    destruct (trackEvent_state env e p cb now s) as (_ & Hi & _ & _ & Hq & Hc).
    rewrite Hi, Hq, Hc.
    destruct (mixpanelInitialized s); simpl; [left|right; left].
    + by rewrite omap_app.
    + done.
  - unfold step; simpl.
    destruct (identifyUser_state env u props s) as (_ & _ & Hi & _ & _ & Hq & _ & Hc).
    rewrite Hi, Hq, Hc.
    destruct (mixpanelInitialized s); simpl; [left|right; left]; [|done].
    by rewrite omap_app, as_event_identify_calls.
  - unfold step; simpl.
    destruct (resetUser_state env s) as (_ & _ & Hi & _ & _ & Hq & _ & Hc).
    rewrite Hi, Hq, Hc.
    destruct (mixpanelInitialized s); simpl; [left|right; left]; [|done].
    by rewrite omap_app.
Qed.

(** ** Reachable states *)

Lemma push_take (T : list QueuedEvent) (ev : QueuedEvent) :
  (if (length (take MAX_QUEUE_SIZE T) <? MAX_QUEUE_SIZE)%nat
   then (take MAX_QUEUE_SIZE T ++ [ev])%list else take MAX_QUEUE_SIZE T) =
  take MAX_QUEUE_SIZE (T ++ [ev]).
Proof.
  rewrite length_take.
  destruct (Nat.ltb_spec (MAX_QUEUE_SIZE `min` length T) MAX_QUEUE_SIZE) as [Hlt|Hge].
  - rewrite !take_ge; [done| |lia]. rewrite length_app; simpl. lia.
  - rewrite take_app_le; [done|lia].
Qed.

(** What every state reached from the initial one satisfies: once the flag is
    set the queue is empty; before that nothing has been delivered and the
    queue holds the first [MAX_QUEUE_SIZE] tracked events; and at any time the
    delivered events followed by the queued ones are a subsequence of the
    tracked ones. *)
Lemma run_invariant (env : Env) (ops : list Op) :
  let s := run env ops initial in
  (mixpanelInitialized s = true -> eventBackupQueue s = []) /\
  (mixpanelInitialized s = false ->
     delivered s = [] /\
     eventBackupQueue s = take MAX_QUEUE_SIZE (tracked env ops)) /\
  sublist (delivered s ++ eventBackupQueue s) (tracked env ops).
Proof.
  induction ops as [|op ops IH] using rev_ind; simpl.
  - repeat split; try done.
  - rewrite run_snoc, tracked_snoc.
    destruct IH as (Hready & Hwait & Hsub).
    destruct (step_effect env (run env ops initial) op Hready)
      as [(Hi & Hi' & Hq & Hd)|[(Hi & Hi' & Hd & Hq)|(Hi & Hi' & Ht & Hq & Hd)]].
    + rewrite Hi', Hq, Hd. split; [auto|]. split; [done|].
      rewrite (Hready Hi), !app_nil_r in *.
      apply sublist_app; [done|]. by destruct (tracked_op env op).
    + destruct (Hwait Hi) as (Hd0 & Hq0).
      assert (eventBackupQueue (step env (run env ops initial) op) =
              take MAX_QUEUE_SIZE
                (tracked env ops ++
                 match tracked_op env op with Some ev => [ev] | None => [] end)) as Hq'.
      { rewrite Hq. destruct (tracked_op env op) as [ev|].
        - rewrite Hq0. apply push_take.
        - by rewrite app_nil_r. }
      rewrite Hi', Hd, Hd0, Hq'. split; [done|]. split; [done|].
      simpl. apply sublist_take.
    + rewrite Hi', Hq, Hd, Ht, !app_nil_r. split; [done|]. split; [done|].
      exact Hsub.
Qed.

(** ** Ordering, capacity and single delivery *)

(** The step that sets the readiness flag hands the whole queue to the sink. *)
Lemma ready_step (env : Env) (s : State) (op : Op) :
  mixpanelInitialized s = false ->
  mixpanelInitialized (step env s op) = true ->
  delivered (step env s op) = delivered s ++ eventBackupQueue s /\
  eventBackupQueue (step env s op) = [].
Proof.
  intros Hi Hi'.
  destruct (step_effect env s op) as [(H & _)|[(_ & H & _)|(_ & _ & _ & Hq & Hd)]];
    [congruence..|done].
Qed.

(** C1. For any run in which the readiness flag is still unset and at most
    [MAX_QUEUE_SIZE] events have been tracked, the step that makes the
    initialisation succeed delivers to [mixpanel.track] exactly the enriched
    events of the [trackEvent] calls, in the order of the calls, and leaves
    the queue empty. *)
Theorem drain_delivers_in_call_order (env : Env) (ops : list Op) (op : Op) :
  mixpanelInitialized (run env ops initial) = false ->
  length (tracked env ops) <= MAX_QUEUE_SIZE ->
  mixpanelInitialized (step env (run env ops initial) op) = true ->
  delivered (step env (run env ops initial) op) = tracked env ops /\
  eventBackupQueue (step env (run env ops initial) op) = [].
Proof.
  intros Hi Hlen Hi'.
  destruct (run_invariant env ops) as (_ & Hwait & _).
  destruct (Hwait Hi) as (Hd & Hq).
  destruct (ready_step env _ op Hi Hi') as (Hd' & Hq').
  split; [|done].
  rewrite Hd', Hd, Hq. simpl. by apply take_ge.
Qed.

Lemma drain_delivers_in_call_order_witness :
  let ops := [OpTrack FeedbackSubmitted {[ "feedback_text" := JStr "great app" ]} None noon;
              OpHelper (TrackSummaryView "pros") noon;
              OpTrack SessionEnded {[ "duration" := JNum 5 ]} (Some CbReturns) noon] in
  delivered (step sink_ok (run sink_ok ops initial) (OpInit "token" true)) =
    tracked sink_ok ops /\
  eventBackupQueue (step sink_ok (run sink_ok ops initial) (OpInit "token" true)) = [].
Proof.
  intros ops.
  apply (drain_delivers_in_call_order sink_ok ops (OpInit "token" true)).
  - vm_compute. reflexivity.
  - vm_compute. lia.
  - vm_compute. reflexivity.
Defined.

(** What [trackEvent] returns, and how often it runs the callback, when the
    flag is unset and the queue is full. *)
Lemma full_queue_result (env : Env) (e : EventName) (p : Props)
    (cb : option Callback) (now : Now) (s : State) :
  mixpanelInitialized s = false ->
  MAX_QUEUE_SIZE <= length (eventBackupQueue s) ->
  fst (trackEvent env e p cb now s) =
    match cb with Some CbThrows => Throw CallbackExn | _ => Ok tt end /\
  callbackRuns (snd (trackEvent env e p cb now s)) =
    callbackRuns s +
    match cb with None => 0 | Some CbReturns => 1 | Some CbThrows => 2 end.
Proof.
  intros Hi Hfull.
  destruct s as [d ini q cl tm sc co cbr]; simpl in *. subst ini.
  unfold trackEvent. run_m.
  destruct (Nat.ltb_spec (length q) MAX_QUEUE_SIZE) as [Hlt|_]; [lia|].
  run_m. destruct cb as [[]|]; run_m; split; first [done | lia].
Qed.

(** C2. The queue of a reachable state never holds more than
    [MAX_QUEUE_SIZE] entries, whatever the sink does.  A [trackEvent] call
    made while the flag is unset and the queue is full drops the new event:
    the queue and the calls received by the sink stay as they are, and when
    an initialisation succeeds later on, exactly the [MAX_QUEUE_SIZE] first
    tracked events reach the sink, the newest one not among them.  The call
    returns normally when no callback is given or the callback returns; a
    callback that throws is run twice and its exception escapes
    [trackEvent], the event being dropped all the same. *)
Theorem queue_is_capped_and_drops_newest (env : Env) (ops : list Op)
    (e : EventName) (p : Props) (cb : option Callback) (now : Now) :
  length (eventBackupQueue (run env ops initial)) <= MAX_QUEUE_SIZE /\
  (mixpanelInitialized (run env ops initial) = false ->
   length (eventBackupQueue (run env ops initial)) = MAX_QUEUE_SIZE ->
   fst (trackEvent env e p cb now (run env ops initial)) =
     match cb with Some CbThrows => Throw CallbackExn | _ => Ok tt end /\
   callbackRuns (run env (ops ++ [OpTrack e p cb now]) initial) =
     callbackRuns (run env ops initial) +
     match cb with None => 0 | Some CbReturns => 1 | Some CbThrows => 2 end /\
   eventBackupQueue (run env (ops ++ [OpTrack e p cb now]) initial) =
     eventBackupQueue (run env ops initial) /\
   sinkCalls (run env (ops ++ [OpTrack e p cb now]) initial) =
     sinkCalls (run env ops initial) /\
   tracked env (ops ++ [OpTrack e p cb now]) = tracked env ops ++ [entry_of e p now] /\
   (forall (more : list Op) (op : Op),
      mixpanelInitialized
        (run env (ops ++ OpTrack e p cb now :: more) initial) = false ->
      mixpanelInitialized
        (step env (run env (ops ++ OpTrack e p cb now :: more) initial) op) = true ->
      delivered (step env (run env (ops ++ OpTrack e p cb now :: more) initial) op) =
        take MAX_QUEUE_SIZE (tracked env ops) /\
      length (delivered
                (step env (run env (ops ++ OpTrack e p cb now :: more) initial) op)) =
        MAX_QUEUE_SIZE)).
Proof.
  split.
  { destruct (run_invariant env ops) as (Hready & Hwait & _).
    destruct (mixpanelInitialized (run env ops initial)) eqn:E.
    - rewrite (Hready eq_refl). simpl. lia.
    - destruct (Hwait eq_refl) as (_ & ->). rewrite length_take. lia. }
  intros Hi Hfull.
  destruct (run_invariant env ops) as (_ & Hwait & _).
  destruct (Hwait Hi) as (_ & Hq).
  assert (MAX_QUEUE_SIZE <= length (eventBackupQueue (run env ops initial))) as Hle
    by (rewrite Hfull; done).
  destruct (full_queue_result env e p cb now _ Hi Hle) as (Hres & Hruns).
  destruct (trackEvent_state env e p cb now (run env ops initial))
    as (_ & _ & _ & _ & Hq' & Hsc').
  rewrite Hi, Hfull, Nat.ltb_irrefl in Hq'. rewrite Hi in Hsc'. simpl in Hq', Hsc'.
  rewrite run_snoc.
  change (step env (run env ops initial) (OpTrack e p cb now))
    with (snd (trackEvent env e p cb now (run env ops initial))).
  split; [exact Hres|]. split; [exact Hruns|]. split; [exact Hq'|].
  split; [exact Hsc'|]. split; [by rewrite tracked_snoc|].
  intros more op Hw Hr.
  destruct (ready_step env _ op Hw Hr) as (Hd' & _).
  destruct (run_invariant env (ops ++ OpTrack e p cb now :: more)) as (_ & Hwait1 & _).
  destruct (Hwait1 Hw) as (Hd1 & Hq1).
  assert (length (take MAX_QUEUE_SIZE (tracked env ops)) = MAX_QUEUE_SIZE) as Hlen
    by (rewrite <- Hq; exact Hfull).
  assert (MAX_QUEUE_SIZE <= length (tracked env ops)) as Hlong
    by (rewrite length_take in Hlen; lia).
  rewrite Hd', Hd1, Hq1. simpl app. unfold tracked at 1 3. rewrite omap_app.
  fold (tracked env ops). rewrite (take_app_le _ _ _ Hlong). done.
Qed.

Lemma queue_is_capped_and_drops_newest_witness :
  let ops := replicate 50 (OpHelper TrackFeedbackButtonClicked noon) in
  let late := OpTrack FeedbackSubmitted {[ "feedback_text" := JStr "great app" ]}
                     (Some CbThrows) noon in
  fst (trackEvent sink_ok FeedbackSubmitted {[ "feedback_text" := JStr "great app" ]}
         (Some CbThrows) noon (run sink_ok ops initial)) =
    Throw CallbackExn /\
  length (eventBackupQueue (run sink_ok (ops ++ [late]) initial)) = 50 /\
  delivered (step sink_ok (run sink_ok (ops ++ [late]) initial) (OpInit "token" false)) =
    tracked sink_ok ops.
Proof.
  intros ops late.
  destruct (queue_is_capped_and_drops_newest sink_ok ops FeedbackSubmitted
              {[ "feedback_text" := JStr "great app" ]} (Some CbThrows) noon)
    as (_ & Hfull).
  destruct Hfull as (Hres & _ & Hq & _ & _ & Hlater).
  - vm_compute. reflexivity.
  - vm_compute. reflexivity.
  - destruct (Hlater [] (OpInit "token" false)) as (Hd & _).
    + vm_compute. reflexivity.
    + vm_compute. reflexivity.
    + split; [exact Hres|]. split.
      * fold late in Hq. rewrite Hq. vm_compute. reflexivity.
      * fold late in Hd. rewrite Hd. vm_compute. reflexivity.
Defined.

(** C3. In every run the delivered events followed by the queued ones form a
    subsequence of the tracked events, so each [trackEvent] call accounts for
    at most one [mixpanel.track] call.  [flushEventQueue] hands each queued
    entry to the sink once and leaves the queue empty (when the flag is set;
    otherwise it does nothing), and invoking it again changes nothing. *)
Theorem no_event_is_delivered_twice (env : Env) (ops : list Op) (s : State) :
  sublist (delivered (run env ops initial) ++ eventBackupQueue (run env ops initial))
          (tracked env ops) /\
  sinkCalls (snd (flushEventQueue env s)) =
    sinkCalls s ++
    (if mixpanelInitialized s then track_call <$> eventBackupQueue s else []) /\
  eventBackupQueue (snd (flushEventQueue env s)) =
    (if mixpanelInitialized s then [] else eventBackupQueue s) /\
  flushEventQueue env (snd (flushEventQueue env s)) =
    (Ok tt, snd (flushEventQueue env s)).
Proof.
  split; [by destruct (run_invariant env ops) as (_ & _ & H)|].
  rewrite !flushEventQueue_eq.
  destruct s as [d [] q cl tm sc co cb]; simpl;
    [|by rewrite app_nil_r].
  destruct q as [|ev q]; simpl; [by rewrite app_nil_r|].
  destruct d; simpl; done.
Qed.

(** A tracked sequence without repetition is delivered without repetition. *)
Corollary delivered_NoDup (env : Env) (ops : list Op) :
  NoDup (tracked env ops) -> NoDup (delivered (run env ops initial)).
Proof.
  intros Hnd. destruct (run_invariant env ops) as (_ & _ & Hsub).
  apply (sublist_NoDup _ (tracked env ops)); [exact Hnd|].
  etrans; [|exact Hsub]. by apply sublist_inserts_r.
Qed.

(** ** Failures during the drain *)

Lemma flush_errors_elem (env : Env) (q : list QueuedEvent) :
  forall (hist : list SinkCall) (k : nat) (ev : QueuedEvent),
    q !! k = Some ev ->
    sink_throws env (hist ++ (track_call <$> take k q)) (track_call ev) = true ->
    ErrFlushFailed (q_name ev) (SinkExn (track_call ev)) ∈ flush_errors env hist q.
Proof.
  induction q as [|ev0 q IH]; intros hist k ev Hk Hthrow; [done|].
  destruct k as [|k]; simpl in *.
  - injection Hk as ->. rewrite app_nil_r in Hthrow. rewrite Hthrow.
    apply elem_of_app. left. apply list_elem_of_singleton. done.
  - apply elem_of_app. right. apply (IH _ k); [done|].
    by rewrite <- app_assoc.
Qed.

(** C8. Once the flag is set, [flushEventQueue] returns normally with the
    queue empty, having offered every queued entry to [mixpanel.track] in
    order, whatever the sink does; each entry whose delivery throws is logged
    with [console.error], and the entries after it are offered all the same. *)
Theorem drain_continues_past_failures (env : Env) (s : State) :
  mixpanelInitialized s = true ->
  fst (flushEventQueue env s) = Ok tt /\
  eventBackupQueue (snd (flushEventQueue env s)) = [] /\
  sinkCalls (snd (flushEventQueue env s)) =
    sinkCalls s ++ (track_call <$> eventBackupQueue s) /\
  (forall (k : nat) (ev : QueuedEvent),
     eventBackupQueue s !! k = Some ev ->
     sink_throws env (sinkCalls s ++ (track_call <$> take k (eventBackupQueue s)))
                 (track_call ev) = true ->
     ErrFlushFailed (q_name ev) (SinkExn (track_call ev))
       ∈ console (snd (flushEventQueue env s))).
Proof.
  intros Hi. rewrite flushEventQueue_eq.
  destruct s as [d ini q cl tm sc co cb]; simpl in *. subst ini. simpl.
  destruct q as [|ev0 q]; simpl.
  - rewrite app_nil_r. repeat split. intros k ev Hk. done.
  - repeat split.
    + by destruct d.
    + by destruct d.
    + intros k ev Hk Hthrow.
      pose proof (flush_errors_elem env (ev0 :: q) sc k ev Hk Hthrow) as Hin.
      simpl in Hin. rewrite elem_of_app in Hin.
      destruct d; simpl; rewrite !elem_of_app; by right.
Qed.

Lemma drain_continues_past_failures_witness :
  let s := set_initialized true
             (run sink_ops_fail
                  [OpHelper TrackFeedbackButtonClicked noon;
                   OpHelper (TrackFeedbackSubmission "great app") noon;
                   OpHelper (TrackSummaryView "cons") noon] initial) in
  eventBackupQueue (snd (flushEventQueue sink_ops_fail s)) = [] /\
  length (sinkCalls (snd (flushEventQueue sink_ops_fail s))) = 3.
Proof.
  intros s.
  destruct (drain_continues_past_failures sink_ops_fail s) as (_ & Hq & Hc & _).
  - vm_compute. reflexivity.
  - split; [exact Hq|]. rewrite Hc. vm_compute. reflexivity.
Defined.

(** ** Enrichment *)

Lemma enrich_other (e : EventName) (p : Props) (now : Now) (k : string) :
  k <> "event_category" -> k <> "timestamp" -> enrich e p now !! k = p !! k.
Proof.
  intros Hc Ht. unfold enrich. by rewrite !lookup_insert_ne.
Qed.

Lemma enrich_category (e : EventName) (p : Props) (now : Now) :
  enrich e p now !! "event_category" =
  Some (JStr (category_value (EVENT_CATEGORIES e))).
Proof.
  unfold enrich. rewrite lookup_insert_ne; [|done]. by rewrite lookup_insert_eq.
Qed.

Lemma enrich_timestamp (e : EventName) (p : Props) (now : Now) :
  enrich e p now !! "timestamp" =
  Some (js_or (get_prop p "timestamp") (JStr (now_iso now))).
Proof. unfold enrich. by rewrite lookup_insert_eq. Qed.

(** C9. The enriched payload agrees with the caller's payload on every field
    other than [event_category] and [timestamp]; its [event_category] is the
    catalog category of the event, whatever the caller supplied; its
    [timestamp] is the caller's when that is truthy and the call-time ISO
    string otherwise (absent or falsy).  The enriched payload is what
    [trackEvent] queues or sends. *)
Theorem enrichment_changes_two_fields_only (env : Env) (s : State)
    (e : EventName) (p : Props) (cb : option Callback) (now : Now) (k : string) :
  k <> "event_category" ->
  k <> "timestamp" ->
  enrich e p now !! k = p !! k /\
  enrich e p now !! "event_category" =
    Some (JStr (category_value (EVENT_CATEGORIES e))) /\
  (if truthy (get_prop p "timestamp")
   then enrich e p now !! "timestamp" = p !! "timestamp"
   else enrich e p now !! "timestamp" = Some (JStr (now_iso now))) /\
  eventBackupQueue (snd (trackEvent env e p cb now s)) =
    (if negb (mixpanelInitialized s) &&
        (length (eventBackupQueue s) <? MAX_QUEUE_SIZE)%nat
     then eventBackupQueue s ++ [mkQueued (event_name_string e) (enrich e p now)]
     else eventBackupQueue s) /\
  sinkCalls (snd (trackEvent env e p cb now s)) =
    (if mixpanelInitialized s
     then sinkCalls s ++ [STrack (event_name_string e) (enrich e p now) (is_some cb)]
     else sinkCalls s).
Proof.
  intros Hc Ht.
  split; [by apply enrich_other|]. split; [apply enrich_category|].
  split.
  - rewrite enrich_timestamp. unfold js_or, get_prop.
    destruct (p !! "timestamp") as [v|]; simpl; [|done].
    by destruct (truthy v).
  - by destruct (trackEvent_state env e p cb now s) as (_ & _ & _ & _ & Hq & Hs).
Qed.

Lemma enrichment_changes_two_fields_only_witness :
  let p : Props := {[ "feedback_text" := JStr "great app";
                      "event_category" := JStr "mine";
                      "timestamp" := JStr "" ]} in
  enrich FeedbackSubmitted p noon !! "feedback_text" = Some (JStr "great app") /\
  enrich FeedbackSubmitted p noon !! "event_category" = Some (JStr "Feedback") /\
  enrich FeedbackSubmitted p noon !! "timestamp" = Some (JStr (now_iso noon)).
Proof.
  intros p.
  destruct (enrichment_changes_two_fields_only sink_ok initial FeedbackSubmitted p None
              noon "feedback_text") as (Hk & Hcat & Hts & _).
  - discriminate.
  - discriminate.
  - split; [rewrite Hk; reflexivity|]. split; [exact Hcat|exact Hts].
Defined.

(** Falsy timestamps the caller may supply. *)
Example falsy_timestamps :
  truthy (JStr "") = false /\ truthy (JNum 0) = false /\ truthy JNull = false /\
  truthy JUndefined = false /\ truthy JNaN = false /\ truthy (JBool false) = false.
Proof. repeat split. Qed.

(** ** Scenario A: an event tracked before initialisation *)

(** C7. [trackEvent('FeedbackSubmitted', {feedback_text: 'great app'})] on the
    freshly loaded module queues the event and calls nothing on the sink; an
    [initMixpanel] whose [init] and [register] calls succeed then makes the
    sink receive exactly one [track] call, for [FeedbackSubmitted], whose
    payload has [feedback_text: 'great app'], [event_category: 'Feedback'] and
    a [timestamp]: the caller's if the payload has a truthy one, the ISO
    string of the call time otherwise (as in the scenario, whose payload has
    none). *)
Theorem feedback_before_init_is_delivered_once (env : Env) (token : string)
    (debug : bool) (p : Props) (cb : option Callback) (now : Now) :
  p !! "feedback_text" = Some (JStr "great app") ->
  sink_throws env [] (SInit token (init_config debug)) = false ->
  sink_throws env [SInit token (init_config debug)] (register_call env) = false ->
  exists props : Props,
    eventBackupQueue (run env [OpTrack FeedbackSubmitted p cb now] initial) =
      [mkQueued "FeedbackSubmitted" props] /\
    sinkCalls (run env [OpTrack FeedbackSubmitted p cb now] initial) = [] /\
    sinkCalls (run env [OpTrack FeedbackSubmitted p cb now; OpInit token debug] initial) =
      [SInit token (init_config debug); register_call env;
       STrack "FeedbackSubmitted" props false] /\
    eventBackupQueue
      (run env [OpTrack FeedbackSubmitted p cb now; OpInit token debug] initial) = [] /\
    props !! "feedback_text" = Some (JStr "great app") /\
    props !! "event_category" = Some (JStr "Feedback") /\
    props !! "timestamp" =
      Some (js_or (get_prop p "timestamp") (JStr (now_iso now))) /\
    (p !! "timestamp" = None -> props !! "timestamp" = Some (JStr (now_iso now))).
Proof.
  intros Hp Hinit Hreg.
  exists (enrich FeedbackSubmitted p now).
  unfold run; simpl. unfold step; simpl.
  destruct (trackEvent_state env FeedbackSubmitted p cb now initial)
    as (Hd & Hi & Hcl & Htm & Hq & Hs).
  simpl in Hq, Hs, Hi, Hcl.
  set (s1 := snd (trackEvent env FeedbackSubmitted p cb now initial)) in *.
  clearbody s1. rewrite initMixpanel_eq.
  set (s0 := set_closures _ _).
  assert (sinkCalls s0 = [] /\ eventBackupQueue s0 = eventBackupQueue s1 /\
          init_call s0 (length (closures s1)) = SInit token (init_config debug))
    as (Hs0 & Hq0 & Hc0).
  { subst s0. unfold init_call, closure_at. destruct s1; simpl in *. subst.
    repeat split. }
  assert (attempt_error env s0 (length (closures s1)) = None) as Hok.
  { unfold attempt_error. rewrite Hs0, Hc0, Hinit. simpl. by rewrite Hreg. }
  destruct (after_initialize_ok env s0 _ Hok) as (_ & _ & Hq' & _ & Hs' & _).
  simpl. rewrite Hq', Hs', Hs0, Hc0, Hq0, Hq, Hs.
  split; [done|]. split; [done|]. split; [done|]. split; [done|].
  split; [by rewrite enrich_other|]. split; [apply enrich_category|].
  split; [apply enrich_timestamp|].
  intros Hnone. rewrite enrich_timestamp. unfold get_prop. by rewrite Hnone.
Qed.

Lemma feedback_before_init_is_delivered_once_witness :
  exists props : Props,
    sinkCalls
      (run sink_ok
           [OpTrack FeedbackSubmitted {[ "feedback_text" := JStr "great app" ]} None noon;
            OpInit "token" false] initial) =
      [SInit "token" (init_config false); register_call sink_ok;
       STrack "FeedbackSubmitted" props false] /\
    props !! "timestamp" = Some (JStr "2025-03-01T12:00:00.000Z").
Proof.
  destruct (feedback_before_init_is_delivered_once sink_ok "token" false
              {[ "feedback_text" := JStr "great app" ]} None noon)
    as (props & _ & _ & Hcalls & _ & _ & _ & _ & Hts).
  - reflexivity.
  - reflexivity.
  - reflexivity.
  - exists props. split; [exact Hcalls|]. apply Hts. reflexivity.
Defined.

(** ** Retry backoff *)

(** C5, as stated, fails: the first failure finds the retry counter at 0, and
    the retry is scheduled after 2000 ms, not after [1000 * 2 ^ 0] ms. *)
Lemma first_retry_delay_counterexample :
  attempt_error sink_init_fails first_attempt_state 0 <> None /\
  cl_retries (closure_at first_attempt_state 0) = 0%Z /\
  timers (snd (initialize sink_init_fails 0 first_attempt_state)) = [mkTimer 2000 0] /\
  timers (snd (initialize sink_init_fails 0 first_attempt_state)) <>
    [mkTimer (1000 * 2 ^ cl_retries (closure_at first_attempt_state 0)) 0].
Proof.
  repeat split; try done.
Qed.

(** C5, amended. When an attempt of closure [i] fails (either [init] or
    [register] throws) and its retry counter is below [MAX_RETRIES], the
    counter is incremented first and the retry is then scheduled after
    [1000 * 2 ^ (incremented counter)] ms: 2000, 4000 and 8000 ms for the
    first, second and third retry; no other closure is touched. *)
Theorem retry_delay_doubles_from_2000 (env : Env) (s : State) (i : nat)
    (c : InitClosure) (e : Exn) :
  closures s !! i = Some c ->
  attempt_error env s i = Some e ->
  (cl_retries c < MAX_RETRIES)%Z ->
  fst (initialize env i s) = Ok tt /\
  closures (snd (initialize env i s)) =
    <[i := mkClosure (cl_token c) (cl_retries c + 1)]> (closures s) /\
  closures (snd (initialize env i s)) !! i =
    Some (mkClosure (cl_token c) (cl_retries c + 1)) /\
  timers (snd (initialize env i s)) =
    timers s ++ [mkTimer (1000 * 2 ^ (cl_retries c + 1)) i] /\
  mixpanelInitialized (snd (initialize env i s)) = mixpanelInitialized s.
Proof.
  intros Hc He Hr. rewrite initialize_eq. simpl.
  destruct (after_initialize_fail env s i e He) as (_ & Hi & _ & _ & _ & Hcl & Htm).
  unfold closure_at in Hcl, Htm. rewrite Hc in Hcl, Htm. simpl in Hcl, Htm.
  apply Z.ltb_lt in Hr. rewrite Hr in Hcl, Htm.
  assert (i < length (closures s)) as Hlt by (by eapply lookup_lt_Some).
  rewrite list_lookup_insert_eq in Htm by done. simpl in Htm.
  rewrite Hcl, Htm, Hi, list_lookup_insert_eq by done. done.
Qed.

Lemma retry_delay_doubles_from_2000_witness :
  timers (snd (initialize sink_init_fails 0 first_attempt_state)) =
    [mkTimer 2000 0] /\
  closures (snd (initialize sink_init_fails 0 first_attempt_state)) !! 0 =
    Some (mkClosure "token" 1).
Proof.
  destruct (retry_delay_doubles_from_2000 sink_init_fails first_attempt_state 0
              (mkClosure "token" 0) (SinkExn (SInit "token" (init_config false))))
    as (_ & _ & Hcl & Htm & _).
  - reflexivity.
  - reflexivity.
  - reflexivity.
  - split; [exact Htm|exact Hcl].
Defined.

(** The three delays of a closure whose attempts all fail. *)
Example backoff_delays :
  tm_delay <$> timers (run sink_init_fails [OpInit "token" false] initial) = [2000%Z] /\
  tm_delay <$> timers (run sink_init_fails [OpInit "token" false; OpTimer 0] initial)
    = [4000%Z] /\
  tm_delay <$> timers (run sink_init_fails [OpInit "token" false; OpTimer 0; OpTimer 0]
                           initial) = [8000%Z].
Proof. repeat split. Qed.

(** ** The callback of [trackEvent] *)

(** C6, at a callback that throws: called before initialisation, [trackEvent]
    queues the event, runs the callback, catches what it throws, runs the
    callback a second time from the [catch] block, and lets that second
    exception escape to the caller. *)
Theorem throwing_callback_escapes_trackEvent :
  fst (trackEvent sink_ok FeedbackSubmitted {[ "feedback_text" := JStr "great app" ]}
                  (Some CbThrows) noon initial) = Throw CallbackExn /\
  callbackRuns
    (snd (trackEvent sink_ok FeedbackSubmitted {[ "feedback_text" := JStr "great app" ]}
                     (Some CbThrows) noon initial)) = 2 /\
  length (eventBackupQueue
    (snd (trackEvent sink_ok FeedbackSubmitted {[ "feedback_text" := JStr "great app" ]}
                     (Some CbThrows) noon initial))) = 1.
Proof. repeat split. Qed.

(** The number of times [trackEvent] itself runs the callback. *)
Lemma trackEvent_callbacks (env : Env) e p cb now (s : State) :
  callbackRuns (snd (trackEvent env e p cb now s)) =
  callbackRuns s +
  match cb with
  | None => 0
  | Some c =>
      if mixpanelInitialized s then
        if sink_throws env (sinkCalls s)
             (STrack (event_name_string e) (enrich e p now) true)
        then 1 else 0
      else match c with CbReturns => 1 | CbThrows => 2 end
  end.
Proof.
  unfold trackEvent.
  destruct s as [d ini q cl tm sc co cbr]; run_m.
  destruct ini; run_m.
  - destruct d; run_m; destruct cb as [[]|]; run_m;
      destruct (sink_throws env sc _); run_m; lia.
  - destruct (length q <? MAX_QUEUE_SIZE)%nat; run_m;
      destruct d; run_m; destruct cb as [[]|]; run_m; lia.
Qed.

(** With a callback that returns, no operation lets an exception escape,
    whatever the sink does; and [trackEvent] runs the callback exactly once
    when the event is queued, dropped or its [mixpanel.track] call throws, and
    hands it to [mixpanel.track] otherwise. *)
Lemma facade_returns_normally (env : Env) (op : Op) (s : State) :
  (forall e p now, op <> OpTrack e p (Some CbThrows) now) ->
  fst (exec env op s) = Ok tt.
Proof.
  intros Hcb. destruct op as [token debug|k|e p cb now|u props| |h now]; simpl.
  - by rewrite initMixpanel_eq.
  - rewrite fire_timer_eq. by destruct (timers s !! k).
  - apply trackEvent_result. intros ->. by eapply Hcb.
  - by destruct (identifyUser_state env u props s) as (H & _).
  - by destruct (resetUser_state env s) as (H & _).
  - rewrite call_helper_eq. by apply trackEvent_result.
Qed.

(** ** The debug flag *)

Lemma erase_track_calls (q : list QueuedEvent) :
  erase_debug <$> (track_call <$> q) = track_call <$> q.
Proof.
  induction q as [|ev q IH]; [done|]. rewrite !fmap_cons, IH. done.
Qed.

Lemma as_event_erase (l : list SinkCall) :
  omap as_event l = omap as_event (erase_debug <$> l).
Proof.
  induction l as [|c l IH]; [done|]. rewrite fmap_cons.
  change (omap as_event (c :: l))
    with (match as_event c with Some y => y :: omap as_event l
          | None => omap as_event l end).
  change (omap as_event (erase_debug c :: (erase_debug <$> l)))
    with (match as_event (erase_debug c) with
          | Some y => y :: omap as_event (erase_debug <$> l)
          | None => omap as_event (erase_debug <$> l) end).
  rewrite <- IH. by destruct c.
Qed.

Lemma non_init_erase (l : list SinkCall) :
  List.filter (fun c => negb (is_init_call c)) l =
  List.filter (fun c => negb (is_init_call c)) (erase_debug <$> l).
Proof.
  induction l as [|c l IH]; [done|]. rewrite fmap_cons. simpl.
  rewrite <- IH. by destruct c.
Qed.

Lemma erase_init_call (s1 s2 : State) (i : nat) :
  closures s1 = closures s2 ->
  erase_debug (init_call s1 i) = erase_debug (init_call s2 i).
Proof. unfold init_call, closure_at. by intros ->. Qed.

Section Blind.
Variable env : Env.
Hypothesis Hblind : debug_blind env.

Lemma attempt_error_blind (s1 s2 : State) (i : nat) :
  agree s1 s2 ->
  is_some (attempt_error env s1 i) = is_some (attempt_error env s2 i) /\
  erase_debug <$> attempt_calls env s1 i = erase_debug <$> attempt_calls env s2 i.
Proof.
  intros [Hi Hq Hcl Htm Hcb Hsc].
  pose proof (erase_init_call s1 s2 i Hcl) as Hinit.
  unfold attempt_error, attempt_calls.
  rewrite (Hblind (sinkCalls s1) (sinkCalls s2) _ _ Hsc Hinit).
  destruct (sink_throws env (sinkCalls s2) (init_call s2 i)).
  - split; [done|]. cbn [fmap list_fmap]. by rewrite Hinit.
  - rewrite (Hblind (sinkCalls s1 ++ [init_call s1 i]) (sinkCalls s2 ++ [init_call s2 i])
               (register_call env) (register_call env)).
    + split; [by destruct (sink_throws env _ _)|].
      cbn [fmap list_fmap]. by rewrite Hinit.
    + rewrite !fmap_app. cbn [fmap list_fmap]. by rewrite Hsc, Hinit.
    + done.
Qed.

Lemma after_initialize_blind (s1 s2 : State) (i : nat) :
  agree s1 s2 -> agree (after_initialize env s1 i) (after_initialize env s2 i).
Proof.
  intros Hag. destruct (attempt_error_blind s1 s2 i Hag) as (Herr & Hcalls).
  destruct Hag as [Hi Hq Hcl Htm Hcb Hsc].
  destruct (attempt_error env s1 i) as [e1|] eqn:E1;
    destruct (attempt_error env s2 i) as [e2|] eqn:E2; try done.
  - destruct (after_initialize_fail env s1 i e1 E1) as (_ & Hi1 & Hq1 & Hcb1 & Hs1 & Hc1 & Ht1).
    destruct (after_initialize_fail env s2 i e2 E2) as (_ & Hi2 & Hq2 & Hcb2 & Hs2 & Hc2 & Ht2).
    unfold closure_at in *. rewrite Hcl in Hc1, Ht1. rewrite Htm in Ht1.
    split; try congruence.
    rewrite Hs1, Hs2, !fmap_app. congruence.
  - destruct (after_initialize_ok env s1 i E1) as (_ & Hi1 & Hq1 & Hcb1 & Hs1 & Hc1 & Ht1).
    destruct (after_initialize_ok env s2 i E2) as (_ & Hi2 & Hq2 & Hcb2 & Hs2 & Hc2 & Ht2).
    split; try congruence.
    rewrite Hs1, Hs2, !fmap_app, !erase_track_calls, Hq, Hsc.
    cbn [fmap list_fmap]. by rewrite (erase_init_call s1 s2 i Hcl).
Qed.

Lemma trackEvent_blind (s1 s2 : State) e p cb now :
  agree s1 s2 ->
  agree (snd (trackEvent env e p cb now s1)) (snd (trackEvent env e p cb now s2)).
Proof.
  intros [Hi Hq Hcl Htm Hcb Hsc].
  destruct (trackEvent_state env e p cb now s1) as (_ & Hi1 & Hc1 & Ht1 & Hq1 & Hs1).
  destruct (trackEvent_state env e p cb now s2) as (_ & Hi2 & Hc2 & Ht2 & Hq2 & Hs2).
  pose proof (trackEvent_callbacks env e p cb now s1) as Hr1.
  pose proof (trackEvent_callbacks env e p cb now s2) as Hr2.
  rewrite (Hblind (sinkCalls s1) (sinkCalls s2) _ _ Hsc eq_refl), Hi, Hcb in Hr1.
  rewrite Hi, Hq in Hq1. rewrite Hi in Hs1.
  split; try congruence.
  rewrite Hs1, Hs2. destruct (mixpanelInitialized s2); [|done].
  rewrite !fmap_app. by rewrite Hsc.
Qed.

Lemma step_blind (s1 s2 : State) (op1 op2 : Op) :
  agree s1 s2 -> same_up_to_debug op1 op2 ->
  agree (step env s1 op1) (step env s2 op2).
Proof.
  intros Hag Hop.
  assert ((exists t d1 d2, op1 = OpInit t d1 /\ op2 = OpInit t d2) \/ op1 = op2)
    as [(t & d1 & d2 & -> & ->)| <-].
  { destruct op1, op2; simpl in Hop; try (by right); try done.
    subst. left. eauto. }
  - unfold step; simpl. rewrite !initMixpanel_eq. simpl.
    destruct Hag as [Hi Hq Hcl Htm Hcb Hsc]. rewrite Hcl.
    apply after_initialize_blind.
    destruct s1, s2; simpl in *. by split.
  - destruct op1 as [token debug|k|e p cb now|u props| |h now]; unfold step; simpl.
    + rewrite !initMixpanel_eq. simpl.
      destruct Hag as [Hi Hq Hcl Htm Hcb Hsc]. rewrite Hcl.
      apply after_initialize_blind. destruct s1, s2; simpl in *. by split.
    + rewrite !fire_timer_eq.
      destruct Hag as [Hi Hq Hcl Htm Hcb Hsc]. rewrite Htm.
      destruct (timers s2 !! k) as [t|]; simpl; [|by split].
      apply after_initialize_blind. destruct s1, s2; simpl in *. subst. by split.
    + by apply trackEvent_blind.
    + destruct Hag as [Hi Hq Hcl Htm Hcb Hsc].
      destruct (identifyUser_state env u props s1)
        as (_ & _ & Hi1 & Hc1 & Ht1 & Hq1 & Hr1 & Hs1).
      destruct (identifyUser_state env u props s2)
        as (_ & _ & Hi2 & Hc2 & Ht2 & Hq2 & Hr2 & Hs2).
      split; try congruence.
      rewrite Hs1, Hs2, Hi. destruct (mixpanelInitialized s2); [|done].
      unfold identify_calls.
      rewrite (Hblind (sinkCalls s1) (sinkCalls s2) _ _ Hsc eq_refl).
      rewrite !fmap_app. by rewrite Hsc.
    + destruct Hag as [Hi Hq Hcl Htm Hcb Hsc].
      destruct (resetUser_state env s1) as (_ & _ & Hi1 & Hc1 & Ht1 & Hq1 & Hr1 & Hs1).
      destruct (resetUser_state env s2) as (_ & _ & Hi2 & Hc2 & Ht2 & Hq2 & Hr2 & Hs2).
      split; try congruence.
      rewrite Hs1, Hs2, Hi. destruct (mixpanelInitialized s2); [|done].
      rewrite !fmap_app. by rewrite Hsc.
    + rewrite !call_helper_eq. by apply trackEvent_blind.
Qed.

Lemma run_blind (ops1 ops2 : list Op) :
  Forall2 same_up_to_debug ops1 ops2 ->
  forall s1 s2 : State, agree s1 s2 -> agree (run env ops1 s1) (run env ops2 s2).
Proof.
  induction 1 as [|op1 op2 ops1 ops2 Hop _ IH]; intros s1 s2 Hag; [done|].
  simpl. apply IH. by apply step_blind.
Qed.

End Blind.

(** C10. Take a sink whose behaviour does not depend on the [debug] option it
    is given, and two sequences of operations that differ only in the [debug]
    arguments of their [initMixpanel] calls.  After every number of steps,
    the two runs have the same queue, the same readiness flag, the same retry
    counters and pending timers, the same number of callback runs, and the
    sink has received the same calls, up to the [debug] option of the [init]
    configurations: in particular the same [track], [identify], [people.set]
    and [reset] calls. *)
Theorem debug_flag_does_not_interfere (env : Env) (ops1 ops2 : list Op) (n : nat) :
  debug_blind env ->
  Forall2 same_up_to_debug ops1 ops2 ->
  eventBackupQueue (run env (take n ops1) initial) =
    eventBackupQueue (run env (take n ops2) initial) /\
  mixpanelInitialized (run env (take n ops1) initial) =
    mixpanelInitialized (run env (take n ops2) initial) /\
  closures (run env (take n ops1) initial) = closures (run env (take n ops2) initial) /\
  timers (run env (take n ops1) initial) = timers (run env (take n ops2) initial) /\
  callbackRuns (run env (take n ops1) initial) =
    callbackRuns (run env (take n ops2) initial) /\
  erase_debug <$> sinkCalls (run env (take n ops1) initial) =
    erase_debug <$> sinkCalls (run env (take n ops2) initial) /\
  tracking_calls (run env (take n ops1) initial) =
    tracking_calls (run env (take n ops2) initial) /\
  delivered (run env (take n ops1) initial) = delivered (run env (take n ops2) initial).
Proof.
  intros Hblind Hops.
  assert (agree (run env (take n ops1) initial) (run env (take n ops2) initial))
    as [Hi Hq Hcl Htm Hcb Hsc].
  { apply run_blind; [done| |done]. by apply Forall2_take. }
  repeat split; try done.
  - unfold tracking_calls. by rewrite non_init_erase, Hsc, <- non_init_erase.
  - unfold delivered. by rewrite as_event_erase, Hsc, <- as_event_erase.
Qed.

Lemma sink_ok_blind : debug_blind sink_ok.
Proof. by intros h1 h2 c1 c2 _ _. Qed.

Lemma debug_flag_does_not_interfere_witness :
  erase_debug <$> sinkCalls
    (run sink_ok [OpHelper (TrackFeedbackSubmission "great app") noon;
                  OpInit "token" true; OpIdentify "u1" None; OpReset] initial) =
  erase_debug <$> sinkCalls
    (run sink_ok [OpHelper (TrackFeedbackSubmission "great app") noon;
                  OpInit "token" false; OpIdentify "u1" None; OpReset] initial).
Proof.
  destruct (debug_flag_does_not_interfere sink_ok
              [OpHelper (TrackFeedbackSubmission "great app") noon;
               OpInit "token" true; OpIdentify "u1" None; OpReset]
              [OpHelper (TrackFeedbackSubmission "great app") noon;
               OpInit "token" false; OpIdentify "u1" None; OpReset] 4)
    as (_ & _ & _ & _ & _ & Hcalls & _).
  - exact sink_ok_blind.
  - repeat constructor.
  - exact Hcalls.
Defined.

(** ** A sink whose [init] always fails *)

Lemma total_retries_app (l1 l2 : list InitClosure) :
  total_retries (l1 ++ l2) = (total_retries l1 + total_retries l2)%Z.
Proof.
  induction l1 as [|c l1 IH]; simpl; [done|].
  fold (total_retries (l1 ++ l2)). fold (total_retries l1). lia.
Qed.

Lemma total_retries_insert (cl : list InitClosure) :
  forall (i : nat) (c c' : InitClosure),
    cl !! i = Some c ->
    total_retries (<[i := c']> cl) =
    (total_retries cl - cl_retries c + cl_retries c')%Z.
Proof.
  induction cl as [|c0 cl IH]; intros i c c' Hi; [done|].
  destruct i as [|i]; simpl in *.
  - injection Hi as ->. fold (total_retries cl). lia.
  - fold (total_retries (<[i:=c']> cl)). fold (total_retries cl).
    rewrite (IH i c c' Hi). lia.
Qed.

Lemma total_retries_bounds (cl : list InitClosure) (a b : Z) :
  Forall (fun c => (a <= cl_retries c <= b)%Z) cl ->
  (a * Z.of_nat (length cl) <= total_retries cl <= b * Z.of_nat (length cl))%Z.
Proof.
  induction 1 as [|c cl Hc _ IH]; simpl; [lia|].
  fold (total_retries cl). lia.
Qed.

(** The attempts of a sink whose [init] always fails. *)
Lemma failing_attempt (env : Env) (s : State) (i : nat) :
  init_always_fails env ->
  attempt_error env s i = Some (SinkExn (init_call s i)) /\
  attempt_calls env s i = [init_call s i].
Proof.
  intros Hfail. unfold attempt_error, attempt_calls, init_call.
  by rewrite Hfail.
Qed.

Lemma initial_stuck : Stuck initial.
Proof.
  split; simpl; try done.
  - constructor.
  - intros i Hi. by apply elem_of_nil in Hi.
Qed.

Lemma failed_attempt_stuck (env : Env) (s : State) (i : nat) :
  init_always_fails env -> Running s i -> Stuck (after_initialize env s i).
Proof.
  intros Hfail [Hflag Hcalls Hnd Hself (c & Hc & Hr) Hpend Hidle Hcount].
  destruct (failing_attempt env s i Hfail) as (Herr & Hac).
  destruct (after_initialize_fail env s i _ Herr) as (_ & Hi' & _ & _ & Hs' & Hcl' & Htm').
  unfold closure_at in Hcl', Htm'. rewrite Hc in Hcl', Htm'. simpl in Hcl', Htm'.
  rewrite Hac in Hs'.
  assert (i < length (closures s)) as Hlt by (by eapply lookup_lt_Some).
  destruct (cl_retries c <? MAX_RETRIES)%Z eqn:Hlt3.
  - apply Z.ltb_lt in Hlt3. unfold MAX_RETRIES in Hlt3.
    rewrite list_lookup_insert_eq in Htm' by done. simpl in Htm'.
    split.
    + congruence.
    + rewrite Hs'. apply Forall_app. split; [done|]. by repeat constructor.
    + rewrite Htm', fmap_app. simpl. apply NoDup_app. split; [done|].
      split; [|apply NoDup_singleton].
      intros j Hj Hj'. apply list_elem_of_singleton in Hj'. by subst.
    + intros j Hj. rewrite Htm', fmap_app in Hj. simpl in Hj.
      apply elem_of_app in Hj as [Hj|Hj].
      * destruct (Hpend j Hj) as (cj & Hcj & Hrj). exists cj. split; [|done].
        rewrite Hcl', list_lookup_insert_ne; [done|]. by intros ->.
      * apply list_elem_of_singleton in Hj as ->.
        eexists. rewrite Hcl', list_lookup_insert_eq by done. split; [done|].
        simpl. lia.
    + intros j cj Hcj Hj. rewrite Htm', fmap_app in Hj. simpl in Hj.
      apply not_elem_of_app in Hj as (Hj & Hji).
      rewrite list_elem_of_singleton in Hji.
      rewrite Hcl', list_lookup_insert_ne in Hcj by done.
      by eapply Hidle.
    + rewrite Hs', Htm', Hcl', !length_app, length_insert. simpl.
      rewrite (total_retries_insert _ i c _ Hc). simpl. lia.
  - apply Z.ltb_ge in Hlt3. unfold MAX_RETRIES in Hlt3.
    assert (cl_retries c = 3%Z) as Hr3 by lia.
    split.
    + congruence.
    + rewrite Hs'. apply Forall_app. split; [done|]. by repeat constructor.
    + by rewrite Htm'.
    + intros j Hj. rewrite Htm' in Hj. rewrite Hcl'. by apply Hpend.
    + intros j cj Hcj Hj. rewrite Htm' in Hj. rewrite Hcl' in Hcj.
      destruct (decide (j = i)) as [->|Hne].
      * congruence.
      * by eapply Hidle.
    + rewrite Hs', Htm', Hcl', !length_app. simpl. lia.
Qed.

Lemma attempt_running (s : State) (op : Op) (s0 : State) (i : nat) :
  Stuck s -> attempt_of s op = Some (s0, i) -> Running s0 i.
Proof.
  intros [Hflag Hcalls Hnd Hpend Hidle Hcount] Ha.
  destruct op as [token debug|k| | | |]; simpl in Ha; try done.
  - injection Ha as <- <-. destruct s as [d ini q cl tm sc co cb]; simpl in *.
    assert (forall j, j ∈ tm_target <$> tm -> j < length cl) as Hlt.
    { intros j Hj. destruct (Hpend j Hj) as (c & Hc & _). by eapply lookup_lt_Some. }
    split; simpl; try done.
    + intros Hin. apply Hlt in Hin. lia.
    + exists (mkClosure token 0). split; [|simpl; lia].
      by rewrite list_lookup_middle.
    + intros j Hj. destruct (Hpend j Hj) as (c & Hc & Hr). exists c. split; [|done].
      rewrite lookup_app_l; [done|]. by apply Hlt.
    + intros j c Hne Hc Hj. apply (Hidle j c); [|done].
      rewrite lookup_app_l in Hc; [done|].
      apply lookup_lt_Some in Hc. rewrite length_app in Hc. simpl in Hc. lia.
    + rewrite total_retries_app, length_app. simpl. lia.
  - destruct (timers s !! k) as [t|] eqn:Ht; [|done].
    injection Ha as <- <-. destruct s as [d ini q cl tm sc co cb]; simpl in *.
    pose proof (take_drop_middle tm k t Ht) as Hsplit.
    rewrite delete_take_drop.
    set (l1 := take k tm) in *. set (l2 := drop (S k) tm) in *. clearbody l1 l2.
    subst tm. rewrite fmap_app, fmap_cons in Hnd, Hpend, Hidle.
    apply NoDup_app in Hnd as (Hnd1 & Hdisj & Hnd2).
    apply NoDup_cons in Hnd2 as (Hnot2 & Hnd2).
    assert (tm_target t ∉ tm_target <$> l1) as Hnot1.
    { intros Hin. apply (Hdisj _ Hin). apply elem_of_cons. by left. }
    split; simpl; try done.
    + rewrite fmap_app. apply NoDup_app. split; [done|]. split; [|done].
      intros j Hj Hj'. apply (Hdisj _ Hj). apply elem_of_cons. by right.
    + rewrite fmap_app. apply not_elem_of_app. by split.
    + destruct (Hpend (tm_target t)) as (c & Hc & Hr).
      { apply elem_of_app. right. apply elem_of_cons. by left. }
      exists c. split; [done|lia].
    + intros j Hj. apply Hpend. rewrite fmap_app in Hj.
      apply elem_of_app in Hj as [Hj|Hj]; apply elem_of_app; [by left|right].
      apply elem_of_cons. by right.
    + intros j c Hne Hc Hj. apply (Hidle j c Hc).
      rewrite fmap_app in Hj. apply not_elem_of_app in Hj as (Hj1 & Hj2).
      apply not_elem_of_app. split; [done|].
      intros Hin. apply elem_of_cons in Hin as [Heq|Hin]; done.
    + rewrite !length_app in *. simpl in *. lia.
Qed.

(** Every step keeps the invariant, and only [initMixpanel] adds a closure. *)
Lemma stuck_step (env : Env) (s : State) (op : Op) :
  init_always_fails env -> Stuck s ->
  Stuck (step env s op) /\
  length (closures (step env s op)) =
    length (closures s) + (if is_init_op op then 1 else 0).
Proof.
  intros Hfail Hst.
  destruct (step_kind env s op) as [s0 i Ha Hs|k -> Hk Hs|e p cb now Ha Hs|u props ->| ->].
  - rewrite Hs. split.
    + apply failed_attempt_stuck; [done|]. by eapply attempt_running.
    + destruct (failing_attempt env s0 i Hfail) as (Herr & _).
      destruct (after_initialize_fail env s0 i _ Herr) as (_ & _ & _ & _ & _ & Hcl & _).
      rewrite Hcl.
      assert (length (closures s0) =
              length (closures s) + (if is_init_op op then 1 else 0)) as <-.
      { destruct op; simpl in Ha; try done.
        - injection Ha as <- <-. destruct s; simpl. by rewrite length_app.
        - destruct (timers s !! k); [|done]. injection Ha as <- <-.
          destruct s; simpl. lia. }
      destruct (_ <? _)%Z; [by rewrite length_insert|done].
  - rewrite Hs. simpl. split; [done|lia].
  - rewrite Hs.
    destruct Hst as [Hflag Hcalls Hnd Hpend Hidle Hcount].
    destruct (trackEvent_state env e p cb now s) as (_ & Hi & Hcl & Htm & _ & Hsc).
    rewrite Hflag in Hsc. split.
    + split; rewrite ?Hi, ?Hcl, ?Htm, ?Hsc; done.
    + rewrite Hcl. destruct op; simpl in *; try done; lia.
  - unfold step; simpl.
    destruct Hst as [Hflag Hcalls Hnd Hpend Hidle Hcount].
    destruct (identifyUser_state env u props s)
      as (_ & _ & Hi & Hcl & Htm & _ & _ & Hsc).
    rewrite Hflag in Hsc. split.
    + split; rewrite ?Hi, ?Hcl, ?Htm, ?Hsc; done.
    + rewrite Hcl. lia.
  - unfold step; simpl.
    destruct Hst as [Hflag Hcalls Hnd Hpend Hidle Hcount].
    destruct (resetUser_state env s) as (_ & _ & Hi & Hcl & Htm & _ & _ & Hsc).
    rewrite Hflag in Hsc. split.
    + split; rewrite ?Hi, ?Hcl, ?Htm, ?Hsc; done.
    + rewrite Hcl. lia.
Qed.

Lemma n_inits_snoc (ops : list Op) (op : Op) :
  n_inits (ops ++ [op]) = n_inits ops + (if is_init_op op then 1 else 0).
Proof.
  unfold n_inits. rewrite List.filter_app, length_app. simpl.
  by destruct (is_init_op op).
Qed.

Lemma stuck_run (env : Env) (ops : list Op) :
  init_always_fails env ->
  Stuck (run env ops initial) /\
  length (closures (run env ops initial)) = n_inits ops.
Proof.
  intros Hfail. induction ops as [|op ops [IH Hn]] using rev_ind.
  - split; [apply initial_stuck|done].
  - rewrite run_snoc, n_inits_snoc.
    destruct (stuck_step env _ op Hfail IH) as (Hst & Hlen).
    split; [done|lia].
Qed.

Lemma init_attempts_all (s : State) :
  Forall (fun c => is_init_call c = true) (sinkCalls s) ->
  init_attempts s = length (sinkCalls s).
Proof.
  unfold init_attempts. induction 1 as [|c l Hc _ IH]; simpl; [done|].
  rewrite Hc. simpl. by rewrite IH.
Qed.

(** The attempts made so far, counted from the retry counters. *)
Lemma stuck_bounds (s : State) :
  Stuck s ->
  init_attempts s + length (timers s) <= 4 * length (closures s) /\
  (timers s = [] -> init_attempts s = 4 * length (closures s)).
Proof.
  intros [Hflag Hcalls Hnd Hpend Hidle Hcount].
  rewrite (init_attempts_all s Hcalls).
  assert (Forall (fun c => (1 <= cl_retries c <= 3)%Z) (closures s)) as Hall.
  { apply Forall_lookup. intros i c Hc.
    destruct (decide (i ∈ tm_target <$> timers s)) as [Hin|Hout].
    - destruct (Hpend i Hin) as (c' & Hc' & Hr). congruence.
    - rewrite (Hidle i c Hc Hout). lia. }
  split.
  - apply total_retries_bounds in Hall. lia.
  - intros Hnone. rewrite Hnone in *. simpl in *.
    assert (Forall (fun c => (3 <= cl_retries c <= 3)%Z) (closures s)) as Hall3.
    { apply Forall_lookup. intros i c Hc.
      rewrite (Hidle i c Hc); [lia|]. apply not_elem_of_nil. }
    apply total_retries_bounds in Hall3. lia.
Qed.

(** The pending retries run out: firing them one after the other leaves none
    after at most [m] firings, [m] being the number of attempts still owed. *)
Lemma retries_run_out (env : Env) :
  init_always_fails env ->
  forall (m : nat) (ops : list Op),
    4 * n_inits ops - init_attempts (run env ops initial) <= m ->
    exists k, k <= m /\
      timers (run env (ops ++ replicate k (OpTimer 0)) initial) = [].
Proof.
  intros Hfail. induction m as [|m IH]; intros ops Hm;
    destruct (stuck_run env ops Hfail) as (Hst & Hn);
    destruct (stuck_bounds _ Hst) as (Hle & _);
    destruct (timers (run env ops initial)) as [|t tm] eqn:Htm;
    try (exists 0; split; [lia|]; simpl; by rewrite app_nil_r);
    simpl in Hle; [lia|].
  destruct (IH (ops ++ [OpTimer 0])) as (k & Hk & Hnone).
  - rewrite n_inits_snoc, run_snoc. simpl.
    assert (init_attempts (step env (run env ops initial) (OpTimer 0)) =
            S (init_attempts (run env ops initial))) as ->; [|lia].
    unfold step; simpl. rewrite fire_timer_eq, Htm. simpl.
    destruct (failing_attempt env (set_timers tm (run env ops initial))
                (tm_target t) Hfail) as (Herr & Hac).
    destruct (after_initialize_fail env _ _ _ Herr) as (_ & _ & _ & _ & Hs & _).
    unfold init_attempts. rewrite Hs, Hac, List.filter_app, length_app.
    destruct (run env ops initial); simpl. lia.
  - exists (S k). split; [lia|].
    rewrite <- Hnone. simpl. by rewrite cons_middle, app_assoc.
Qed.

(** Once no retry is pending, nothing but a new [initMixpanel] call makes the
    module call the sink again. *)
Lemma stuck_quiet (env : Env) (more : list Op) :
  init_always_fails env ->
  forall s : State,
    Stuck s -> timers s = [] -> n_inits more = 0 ->
    sinkCalls (run env more s) = sinkCalls s /\ timers (run env more s) = [].
Proof.
  intros Hfail. induction more as [|op more IH]; intros s Hst Htm Hn; [done|].
  assert (is_init_op op = false /\ n_inits more = 0) as (Hop & Hn').
  { unfold n_inits in *. simpl in Hn. destruct (is_init_op op); [done|]. by split. }
  assert (sinkCalls (step env s op) = sinkCalls s /\ timers (step env s op) = [])
    as (Hsc & Htm').
  { destruct (step_kind env s op) as [s0 i Ha Hs|k -> Hk Hs|e p cb now Ha Hs|u props ->| ->].
    - destruct op; simpl in *; try done. by rewrite Htm in Ha.
    - by rewrite Hs.
    - rewrite Hs.
      destruct (trackEvent_state env e p cb now s) as (_ & _ & _ & Ht & _ & Hc).
      rewrite Hc, Ht, (stuck_flag s Hst). done.
    - unfold step; simpl.
      destruct (identifyUser_state env u props s) as (_ & _ & _ & _ & Ht & _ & _ & Hc).
      rewrite Hc, Ht, (stuck_flag s Hst). done.
    - unfold step; simpl.
      destruct (resetUser_state env s) as (_ & _ & _ & _ & Ht & _ & _ & Hc).
      rewrite Hc, Ht, (stuck_flag s Hst). done. }
  simpl. destruct (stuck_step env s op Hfail Hst) as (Hst' & _).
  destruct (IH (step env s op) Hst' Htm' Hn') as (-> & ->). done.
Qed.

(** C4, as stated, fails: with a sink whose [init] always throws, the third
    attempt still schedules a retry, and a fourth [mixpanel.init] call is
    made before the module gives up. *)
Lemma four_attempts_counterexample :
  timers (run sink_init_fails [OpInit "token" false; OpTimer 0; OpTimer 0] initial)
    = [mkTimer 8000 0] /\
  init_attempts (run sink_init_fails [OpInit "token" false; OpTimer 0; OpTimer 0] initial)
    = 3 /\
  init_attempts
    (run sink_init_fails [OpInit "token" false; OpTimer 0; OpTimer 0; OpTimer 0] initial)
    = 4 /\
  timers
    (run sink_init_fails [OpInit "token" false; OpTimer 0; OpTimer 0; OpTimer 0] initial)
    = [].
Proof. repeat split. Qed.

(** C4, amended.  With a sink whose [init] always throws, the flag is never
    set and no event is delivered, the events tracked being queued up to
    capacity; each [initMixpanel] call accounts for at most 4 [mixpanel.init]
    calls (the first attempt and [MAX_RETRIES] retries), for exactly 4 once no
    retry is pending; the pending retries do run out; and from then on no
    further [mixpanel.init] call is made unless [initMixpanel] is called
    again. *)
Theorem failing_init_stops_after_four_attempts (env : Env) (ops more : list Op) :
  init_always_fails env ->
  mixpanelInitialized (run env ops initial) = false /\
  delivered (run env ops initial) = [] /\
  eventBackupQueue (run env ops initial) = take MAX_QUEUE_SIZE (tracked env ops) /\
  init_attempts (run env ops initial) <= 4 * n_inits ops /\
  (timers (run env ops initial) = [] ->
     init_attempts (run env ops initial) = 4 * n_inits ops) /\
  (exists k, k <= 4 * n_inits ops /\
     timers (run env (ops ++ replicate k (OpTimer 0)) initial) = []) /\
  (timers (run env ops initial) = [] -> n_inits more = 0 ->
     init_attempts (run env (ops ++ more) initial) =
       init_attempts (run env ops initial) /\
     timers (run env (ops ++ more) initial) = []).
Proof.
  intros Hfail.
  destruct (stuck_run env ops Hfail) as (Hst & Hn).
  destruct (stuck_bounds _ Hst) as (Hle & Heq).
  destruct (run_invariant env ops) as (_ & Hwait & _).
  destruct (Hwait (stuck_flag _ Hst)) as (Hd & Hq).
  split; [by apply stuck_flag|]. split; [done|]. split; [done|].
  split; [lia|]. split; [intros Htm; rewrite Heq by done; lia|].
  split.
  - destruct (retries_run_out env Hfail (4 * n_inits ops) ops) as (k & Hk & Hnone);
      [lia|]. by exists k.
  - intros Htm Hmore.
    assert (run env (ops ++ more) initial = run env more (run env ops initial)) as ->
      by (unfold run; by rewrite foldl_app).
    destruct (stuck_quiet env more Hfail _ Hst Htm Hmore) as (Hsc & Htm').
    split; [|done]. unfold init_attempts. by rewrite Hsc.
Qed.

Lemma failing_init_stops_after_four_attempts_witness :
  init_attempts
    (run sink_init_fails
         [OpInit "token" false; OpTimer 0; OpTimer 0; OpTimer 0;
          OpHelper (TrackFeedbackSubmission "great app") noon] initial) = 4 /\
  delivered
    (run sink_init_fails
         [OpInit "token" false; OpTimer 0; OpTimer 0; OpTimer 0;
          OpHelper (TrackFeedbackSubmission "great app") noon] initial) = [].
Proof.
  destruct (failing_init_stops_after_four_attempts sink_init_fails
              [OpInit "token" false; OpTimer 0; OpTimer 0; OpTimer 0;
               OpHelper (TrackFeedbackSubmission "great app") noon] [])
    as (_ & Hd & _ & _ & Hfour & _).
  - intros hist token cfg. reflexivity.
  - split; [|exact Hd]. rewrite Hfour; reflexivity.
Defined.

(** ** Readiness is permanent, and the order of delivery *)

(** X1. Once the readiness flag is set it stays set, and the queue stays
    empty, whatever is called afterwards and whatever the sink does. *)
Theorem ready_is_permanent (env : Env) (ops more : list Op) :
  mixpanelInitialized (run env ops initial) = true ->
  mixpanelInitialized (run env (ops ++ more) initial) = true /\
  eventBackupQueue (run env (ops ++ more) initial) = [].
Proof.
  intros Hready. induction more as [|op more IH] using rev_ind.
  - rewrite app_nil_r. split; [done|].
    by destruct (run_invariant env ops) as (H & _); apply H.
  - rewrite app_assoc, run_snoc. destruct IH as (Hi & Hq).
    destruct (run_invariant env (ops ++ more)) as (Hempty & _).
    destruct (step_effect env _ op Hempty)
      as [(_ & Hi' & Hq' & _)|[(Hc & _)|(Hc & _)]]; [|congruence..].
    split; [done|]. by rewrite Hq'.
Qed.

Lemma ready_is_permanent_witness :
  mixpanelInitialized
    (run sink_ops_fail
         ([OpInit "token" false] ++
          [OpInit "other" true; OpReset; OpHelper TrackFeedbackButtonClicked noon])
         initial) = true.
Proof.
  apply (ready_is_permanent sink_ops_fail [OpInit "token" false]
           [OpInit "other" true; OpReset; OpHelper TrackFeedbackButtonClicked noon]).
  vm_compute. reflexivity.
Defined.

(** X2. Global order of delivery: when a step makes the module ready after
    the operations [ops1], then after any further operations [ops2] the sink
    has been handed, in this order, the first [MAX_QUEUE_SIZE] events tracked
    during [ops1] (the drain) and then every event tracked during [ops2] (the
    direct sends). *)
Theorem delivery_order_across_ready (env : Env) (ops1 ops2 : list Op) (op : Op) :
  mixpanelInitialized (run env ops1 initial) = false ->
  mixpanelInitialized (step env (run env ops1 initial) op) = true ->
  delivered (run env (ops1 ++ op :: ops2) initial) =
    take MAX_QUEUE_SIZE (tracked env ops1) ++ tracked env ops2.
Proof.
  intros Hwait Hready. induction ops2 as [|op2 ops2 IH] using rev_ind.
  - rewrite app_nil_r. change (op :: []) with [op]. rewrite run_snoc.
    destruct (run_invariant env ops1) as (_ & Hw & _).
    destruct (Hw Hwait) as (Hd & Hq).
    destruct (ready_step env _ op Hwait Hready) as (Hd' & _).
    by rewrite Hd', Hd, Hq.
  - assert (ops1 ++ op :: ops2 ++ [op2] = (ops1 ++ op :: ops2) ++ [op2]) as ->
      by (by rewrite <- app_assoc).
    rewrite run_snoc.
    destruct (run_invariant env (ops1 ++ op :: ops2)) as (Hempty & _).
    assert (mixpanelInitialized (run env (ops1 ++ op :: ops2) initial) = true) as Hi.
    { assert (ops1 ++ op :: ops2 = (ops1 ++ [op]) ++ ops2) as ->
        by (by rewrite <- app_assoc).
      assert (mixpanelInitialized (run env (ops1 ++ [op]) initial) = true) as H1
        by (by rewrite run_snoc).
      clear -H1. induction ops2 as [|o ops2 IH2] using rev_ind.
      - by rewrite app_nil_r.
      - rewrite app_assoc, run_snoc.
        destruct (run_invariant env ((ops1 ++ [op]) ++ ops2)) as (He & _).
        destruct (step_effect env _ o He)
          as [(_ & Hi' & _)|[(Hc & _)|(Hc & _)]]; [done|congruence..]. }
    destruct (step_effect env _ op2 Hempty)
      as [(_ & _ & _ & Hd)|[(Hc & _)|(Hc & _)]]; [|congruence..].
    by rewrite Hd, IH, tracked_snoc, app_assoc.
Qed.

Lemma delivery_order_across_ready_witness :
  delivered
    (run sink_ok
         ([OpHelper (TrackSummaryView "pros") noon] ++
          OpInit "token" false :: [OpHelper TrackFeedbackButtonClicked noon])
         initial) =
  take MAX_QUEUE_SIZE (tracked sink_ok [OpHelper (TrackSummaryView "pros") noon]) ++
  tracked sink_ok [OpHelper TrackFeedbackButtonClicked noon].
Proof.
  apply (delivery_order_across_ready sink_ok).
  - vm_compute. reflexivity.
  - vm_compute. reflexivity.
Defined.

(** The sink calls of a step taken while the flag is unset: a failed attempt
    adds setup calls only, the successful one adds [init], [register] and the
    drain, and anything else adds nothing. *)
Lemma waiting_step_calls (env : Env) (s : State) (op : Op) :
  mixpanelInitialized s = false ->
  (mixpanelInitialized (step env s op) = false /\
   exists extra, sinkCalls (step env s op) = sinkCalls s ++ extra /\
                 Forall (fun c => is_setup_call c = true) extra) \/
  (mixpanelInitialized (step env s op) = true /\
   exists c1, is_setup_call c1 = true /\
     sinkCalls (step env s op) =
       sinkCalls s ++ [c1; register_call env] ++ (track_call <$> eventBackupQueue s)).
Proof.
  intros Hi.
  destruct (step_kind env s op) as [s0 i Ha Hs|k -> Hk Hs|e p cb now Ha Hs|u props ->| ->].
  - destruct (attempt_of_frame _ _ _ _ Ha) as (Hi0 & Hq0 & Hc0 & _).
    rewrite Hs. destruct (attempt_error env s0 i) as [e|] eqn:He.
    + destruct (after_initialize_fail _ _ _ _ He) as (_ & Hi' & _ & _ & Hc' & _).
      left. split; [congruence|]. exists (attempt_calls env s0 i).
      split; [congruence|]. unfold attempt_calls.
      destruct (sink_throws env _ _); by repeat constructor.
    + destruct (after_initialize_ok _ _ _ He) as (_ & Hi' & _ & _ & Hc' & _).
      right. split; [done|]. exists (init_call s0 i). split; [done|]. congruence.
  - rewrite Hs. left. split; [done|]. exists []. by rewrite app_nil_r.
  - rewrite Hs.
    destruct (trackEvent_state env e p cb now s) as (_ & Hi' & _ & _ & _ & Hc).
    rewrite Hi in Hc. left. split; [congruence|]. exists [].
    by rewrite app_nil_r.
  - unfold step; simpl.
    destruct (identifyUser_state env u props s) as (_ & _ & Hi' & _ & _ & _ & _ & Hc).
    rewrite Hi in Hc. left. split; [congruence|]. exists [].
    by rewrite app_nil_r.
  - unfold step; simpl.
    destruct (resetUser_state env s) as (_ & _ & Hi' & _ & _ & _ & _ & Hc).
    rewrite Hi in Hc. left. split; [congruence|]. exists [].
    by rewrite app_nil_r.
Qed.

Lemma waiting_calls (env : Env) (ops : list Op) :
  mixpanelInitialized (run env ops initial) = false ->
  Forall (fun c => is_setup_call c = true) (sinkCalls (run env ops initial)).
Proof.
  induction ops as [|op ops IH] using rev_ind; intros Hi; [constructor|].
  rewrite run_snoc in *.
  destruct (mixpanelInitialized (run env ops initial)) eqn:Hprev.
  - destruct (run_invariant env ops) as (Hempty & _).
    destruct (step_effect env _ op Hempty)
      as [(_ & Hi' & _)|[(Hc & _)|(Hc & _)]]; congruence.
  - destruct (waiting_step_calls env _ op Hprev)
      as [(_ & extra & -> & Hextra)|(Hc & _)]; [|congruence].
    apply Forall_app. split; [by apply IH|done].
Qed.

(** X3. Nothing is sent before the module is ready: while the flag is unset
    the sink has received [init] and [register] calls only.  The step that
    makes the module ready adds [init], [register] and the drained [track]
    calls, so the [identifyUser] and [resetUser] calls made while waiting are
    never replayed: no [identify], [people.set] or [reset] call has reached
    the sink at that point. *)
Theorem nothing_but_setup_before_ready (env : Env) (ops : list Op) (op : Op) :
  mixpanelInitialized (run env ops initial) = false ->
  Forall (fun c => is_setup_call c = true) (sinkCalls (run env ops initial)) /\
  (mixpanelInitialized (step env (run env ops initial) op) = true ->
   Forall (fun c => is_identity_call c = false)
          (sinkCalls (step env (run env ops initial) op))).
Proof.
  intros Hi. pose proof (waiting_calls env ops Hi) as Hsetup.
  split; [done|]. intros Hready.
  destruct (waiting_step_calls env _ op Hi)
    as [(Hc & _)|(_ & c1 & Hc1 & ->)]; [congruence|].
  apply Forall_app. split.
  - eapply Forall_impl; [exact Hsetup|]. by intros [].
  - constructor; [by destruct c1|]. constructor; [done|].
    apply Forall_fmap. apply Forall_true. done.
Qed.

Lemma nothing_but_setup_before_ready_witness :
  Forall (fun c => is_identity_call c = false)
    (sinkCalls
       (step sink_ok
          (run sink_ok
               [OpIdentify "u1" (Some {[ "email" := JStr "a@b.com" ]}); OpReset;
                OpHelper TrackFeedbackButtonClicked noon] initial)
          (OpInit "token" false))).
Proof.
  apply (nothing_but_setup_before_ready sink_ok
           [OpIdentify "u1" (Some {[ "email" := JStr "a@b.com" ]}); OpReset;
            OpHelper TrackFeedbackButtonClicked noon] (OpInit "token" false)).
  - vm_compute. reflexivity.
  - vm_compute. reflexivity.
Defined.

(** ** Identity calls *)

Lemma after_initialize_console_free (env : Env) (s1 s2 : State) (i : nat) :
  same_but_console s1 s2 ->
  same_but_console (after_initialize env s1 i) (after_initialize env s2 i).
Proof.
  intros [Hd Hi Hq Hcl Htm Hsc Hcb].
  assert (init_call s1 i = init_call s2 i) as Hinit
    by (unfold init_call, closure_at; by rewrite Hcl, Hd).
  assert (attempt_calls env s1 i = attempt_calls env s2 i) as Hcalls
    by (unfold attempt_calls; by rewrite Hsc, Hinit).
  assert (is_some (attempt_error env s1 i) = is_some (attempt_error env s2 i)) as Herr.
  { unfold attempt_error. rewrite Hsc, Hinit.
    by repeat destruct (sink_throws env _ _). }
  destruct (attempt_error env s1 i) as [e1|] eqn:E1;
    destruct (attempt_error env s2 i) as [e2|] eqn:E2; try done.
  - destruct (after_initialize_fail env s1 i e1 E1) as (Hd1 & Hi1 & Hq1 & Hcb1 & Hs1 & Hc1 & Ht1).
    destruct (after_initialize_fail env s2 i e2 E2) as (Hd2 & Hi2 & Hq2 & Hcb2 & Hs2 & Hc2 & Ht2).
    unfold closure_at in *. rewrite Hcl in Hc1, Ht1. rewrite Htm in Ht1.
    split; congruence.
  - destruct (after_initialize_ok env s1 i E1) as (Hd1 & Hi1 & Hq1 & Hcb1 & Hs1 & Hc1 & Ht1).
    destruct (after_initialize_ok env s2 i E2) as (Hd2 & Hi2 & Hq2 & Hcb2 & Hs2 & Hc2 & Ht2).
    split; congruence.
Qed.

Lemma step_console_free (env : Env) (s1 s2 : State) (op : Op) :
  same_but_console s1 s2 -> same_but_console (step env s1 op) (step env s2 op).
Proof.
  intros Hsame.
  destruct op as [token debug|k|e p cb now|u props| |h now]; unfold step; simpl.
  - rewrite !initMixpanel_eq. simpl.
    destruct Hsame as [Hd Hi Hq Hcl Htm Hsc Hcb]. rewrite Hcl.
    apply after_initialize_console_free. destruct s1, s2; simpl in *. by split.
  - rewrite !fire_timer_eq.
    destruct Hsame as [Hd Hi Hq Hcl Htm Hsc Hcb]. rewrite Htm.
    destruct (timers s2 !! k) as [t|]; simpl; [|by split].
    apply after_initialize_console_free. destruct s1, s2; simpl in *. subst. by split.
  - destruct Hsame as [Hd Hi Hq Hcl Htm Hsc Hcb].
    destruct (trackEvent_state env e p cb now s1) as (Hd1 & Hi1 & Hc1 & Ht1 & Hq1 & Hs1).
    destruct (trackEvent_state env e p cb now s2) as (Hd2 & Hi2 & Hc2 & Ht2 & Hq2 & Hs2).
    pose proof (trackEvent_callbacks env e p cb now s1) as Hr1.
    pose proof (trackEvent_callbacks env e p cb now s2) as Hr2.
    rewrite Hi, Hq in Hq1. rewrite Hi, Hsc in Hs1. rewrite Hi, Hsc, Hcb in Hr1.
    split; congruence.
  - destruct Hsame as [Hd Hi Hq Hcl Htm Hsc Hcb].
    destruct (identifyUser_state env u props s1)
      as (_ & Hd1 & Hi1 & Hc1 & Ht1 & Hq1 & Hr1 & Hs1).
    destruct (identifyUser_state env u props s2)
      as (_ & Hd2 & Hi2 & Hc2 & Ht2 & Hq2 & Hr2 & Hs2).
    rewrite Hi, Hsc in Hs1. split; congruence.
  - destruct Hsame as [Hd Hi Hq Hcl Htm Hsc Hcb].
    destruct (resetUser_state env s1) as (_ & Hd1 & Hi1 & Hc1 & Ht1 & Hq1 & Hr1 & Hs1).
    destruct (resetUser_state env s2) as (_ & Hd2 & Hi2 & Hc2 & Ht2 & Hq2 & Hr2 & Hs2).
    rewrite Hi, Hsc in Hs1. split; congruence.
  - rewrite !call_helper_eq.
    destruct Hsame as [Hd Hi Hq Hcl Htm Hsc Hcb].
    set (e := helper_event h). set (p := helper_payload env h now).
    destruct (trackEvent_state env e p None now s1) as (Hd1 & Hi1 & Hc1 & Ht1 & Hq1 & Hs1).
    destruct (trackEvent_state env e p None now s2) as (Hd2 & Hi2 & Hc2 & Ht2 & Hq2 & Hs2).
    pose proof (trackEvent_callbacks env e p None now s1) as Hr1.
    pose proof (trackEvent_callbacks env e p None now s2) as Hr2.
    rewrite Hi, Hq in Hq1. rewrite Hi, Hsc in Hs1. rewrite Hcb in Hr1.
    split; congruence.
Qed.

Lemma run_console_free (env : Env) (ops : list Op) :
  forall s1 s2 : State,
    same_but_console s1 s2 -> same_but_console (run env ops s1) (run env ops s2).
Proof.
  induction ops as [|op ops IH]; intros s1 s2 Hsame; [done|].
  simpl. apply IH. by apply step_console_free.
Qed.

(** X4. An [identifyUser] or [resetUser] call made before the module is ready
    is lost for good: apart from the warning on the console, the run goes on
    exactly as if the call had not been made (same queue, flag, retries,
    timers, callback runs and the very same calls to the sink), whatever
    follows. *)
Theorem early_identity_call_is_lost (env : Env) (ops more : list Op) (op : Op) :
  mixpanelInitialized (run env ops initial) = false ->
  is_identity_op op = true ->
  same_but_console (run env (ops ++ op :: more) initial)
                   (run env (ops ++ more) initial).
Proof.
  intros Hi Hop.
  assert (forall l, run env (ops ++ l) initial = run env l (run env ops initial)) as Happ
    by (intros l; unfold run; by rewrite foldl_app).
  rewrite !Happ. simpl. apply run_console_free.
  destruct op as [| | |u props| |]; try done; unfold step; simpl.
  - destruct (identifyUser_state env u props (run env ops initial))
      as (_ & Hd1 & Hi1 & Hc1 & Ht1 & Hq1 & Hr1 & Hs1).
    rewrite Hi in Hs1. by split.
  - destruct (resetUser_state env (run env ops initial))
      as (_ & Hd1 & Hi1 & Hc1 & Ht1 & Hq1 & Hr1 & Hs1).
    rewrite Hi in Hs1. by split.
Qed.

Lemma early_identity_call_is_lost_witness :
  sinkCalls
    (run sink_ok
         ([OpHelper TrackFeedbackButtonClicked noon] ++
          OpIdentify "u1" (Some {[ "email" := JStr "a@b.com" ]}) ::
          [OpInit "token" true; OpReset]) initial) =
  sinkCalls
    (run sink_ok
         ([OpHelper TrackFeedbackButtonClicked noon] ++ [OpInit "token" true; OpReset])
         initial).
Proof.
  apply sbc_sinkCalls.
  apply (early_identity_call_is_lost sink_ok [OpHelper TrackFeedbackButtonClicked noon]
           [OpInit "token" true; OpReset]
           (OpIdentify "u1" (Some {[ "email" := JStr "a@b.com" ]}))).
  - vm_compute. reflexivity.
  - reflexivity.
Defined.

(** X5. Once the module is ready, [identifyUser] calls [mixpanel.identify] and
    then, only if that call returned and properties were given,
    [mixpanel.people.set]; whichever of the two throws first is logged with
    [console.error] and ends the operation, which returns normally in every
    case and touches neither the queue nor the flag.  [resetUser] likewise
    makes exactly one [mixpanel.reset] call. *)
Theorem identity_calls_when_ready (env : Env) (s : State) (u : string)
    (props : option Props) :
  mixpanelInitialized s = true ->
  fst (identifyUser env u props s) = Ok tt /\
  sinkCalls (snd (identifyUser env u props s)) =
    sinkCalls s ++ SIdentify u ::
      match props with
      | Some p => if sink_throws env (sinkCalls s) (SIdentify u) then [] else [SPeopleSet p]
      | None => []
      end /\
  console (snd (identifyUser env u props s)) =
    console s ++
      (if sink_throws env (sinkCalls s) (SIdentify u)
       then [ErrIdentifyFailed (SinkExn (SIdentify u))]
       else match props with
            | Some p =>
                if sink_throws env (sinkCalls s ++ [SIdentify u]) (SPeopleSet p)
                then [ErrIdentifyFailed (SinkExn (SPeopleSet p))]
                else if mixpanelDebugMode s then [LogIdentified u p] else []
            | None => if mixpanelDebugMode s then [LogIdentified u ∅] else []
            end) /\
  eventBackupQueue (snd (identifyUser env u props s)) = eventBackupQueue s /\
  mixpanelInitialized (snd (identifyUser env u props s)) = true /\
  fst (resetUser env s) = Ok tt /\
  sinkCalls (snd (resetUser env s)) = sinkCalls s ++ [SReset] /\
  console (snd (resetUser env s)) =
    console s ++
      (if sink_throws env (sinkCalls s) SReset then [ErrResetFailed (SinkExn SReset)]
       else if mixpanelDebugMode s then [LogReset] else []).
Proof.
  intros Hi. destruct s as [d ini q cl tm sc co cbr]; simpl in Hi; subst ini.
  unfold identifyUser, resetUser. run_m.
  repeat split.
  all: repeat (destruct (sink_throws env _ _); run_m);
    destruct props as [p|]; run_m;
    repeat (destruct (sink_throws env _ _); run_m);
    destruct d; run_m; rewrite <- ?app_assoc, ?app_nil_r; try reflexivity.
Qed.

Lemma identity_calls_when_ready_witness :
  sinkCalls
    (snd (identifyUser sink_ops_fail "u1" (Some {[ "email" := JStr "a@b.com" ]})
            (run sink_ops_fail [OpInit "token" false] initial))) =
  [SInit "token" (init_config false); register_call sink_ops_fail; SIdentify "u1"].
Proof.
  destruct (identity_calls_when_ready sink_ops_fail
              (run sink_ops_fail [OpInit "token" false] initial) "u1"
              (Some {[ "email" := JStr "a@b.com" ]})) as (_ & Hcalls & _).
  - vm_compute. reflexivity.
  - rewrite Hcalls. reflexivity.
Defined.

(** ** Outcomes of [trackEvent] *)

(** X6. An exception escapes [trackEvent] exactly when the caller's callback
    throws and the module itself runs it, that is when the module is not
    ready or the [mixpanel.track] call throws; in every other case
    [trackEvent] returns normally, whatever the sink does.  The module runs
    the callback once when the event is queued or dropped or the send fails
    (twice if that first run throws before the module is ready), and not at
    all when the send succeeds, the callback then being in the sink's hands.
    A throwing callback does not keep the event from being queued or sent. *)
Theorem trackEvent_outcome (env : Env) (e : EventName) (p : Props)
    (cb : option Callback) (now : Now) (s : State) :
  fst (trackEvent env e p cb now s) =
    (if callback_throws cb &&
        (negb (mixpanelInitialized s) ||
         sink_throws env (sinkCalls s)
           (STrack (event_name_string e) (enrich e p now) true))
     then Throw CallbackExn else Ok tt) /\
  callbackRuns (snd (trackEvent env e p cb now s)) =
    callbackRuns s +
    match cb with
    | None => 0
    | Some c =>
        if mixpanelInitialized s then
          if sink_throws env (sinkCalls s)
               (STrack (event_name_string e) (enrich e p now) true)
          then 1 else 0
        else match c with CbReturns => 1 | CbThrows => 2 end
    end /\
  eventBackupQueue (snd (trackEvent env e p cb now s)) =
    eventBackupQueue (snd (trackEvent env e p None now s)) /\
  delivered (snd (trackEvent env e p cb now s)) =
    delivered (snd (trackEvent env e p None now s)).
Proof.
  split; [|split; [apply trackEvent_callbacks|]].
  - unfold trackEvent.
    destruct s as [d ini q cl tm sc co cbr]; run_m.
    destruct ini; run_m.
    + destruct d; run_m; destruct cb as [[]|]; run_m;
        destruct (sink_throws env sc _); run_m; reflexivity.
    + destruct (length q <? MAX_QUEUE_SIZE)%nat; run_m;
        destruct d; run_m; destruct cb as [[]|]; run_m; reflexivity.
  - destruct (trackEvent_state env e p cb now s) as (_ & _ & _ & _ & Hq & Hs).
    destruct (trackEvent_state env e p None now s) as (_ & _ & _ & _ & Hq0 & Hs0).
    unfold delivered. rewrite Hq, Hq0, Hs, Hs0.
    split; [done|]. destruct (mixpanelInitialized s); [|done].
    by rewrite !omap_app.
Qed.

(** X7. A dropped event leaves no trace: when the module is not ready and the
    queue is full, [trackEvent] neither queues nor sends the event and writes
    nothing about the drop, not even in debug mode.  Without a callback the
    state is left exactly as it was; a callback that returns is run once,
    which is the only change; a callback that throws is run twice, its
    exception is logged with [console.error] as a tracking failure and then
    escapes. *)
Theorem full_queue_drop_outcome (env : Env) (e : EventName) (p : Props)
    (cb : option Callback) (now : Now) (s : State) :
  mixpanelInitialized s = false ->
  MAX_QUEUE_SIZE <= length (eventBackupQueue s) ->
  trackEvent env e p cb now s =
    match cb with
    | None => (Ok tt, s)
    | Some CbReturns => (Ok tt, set_callbackRuns (S (callbackRuns s)) s)
    | Some CbThrows =>
        (Throw CallbackExn,
         set_callbackRuns (S (S (callbackRuns s)))
           (set_console
              (console s ++ [ErrTrackingFailed (event_name_string e) CallbackExn]) s))
    end.
Proof.
  intros Hi Hfull.
  destruct s as [d ini q cl tm sc co cbr]; simpl in *. subst ini.
  unfold trackEvent. run_m.
  destruct (Nat.ltb_spec (length q) MAX_QUEUE_SIZE) as [Hlt|_]; [lia|].
  run_m. destruct cb as [[]|]; run_m; done.
Qed.

Lemma full_queue_drop_outcome_witness :
  let s := run sink_init_fails
             (OpInit "token" true :: replicate 50 (OpHelper TrackFeedbackButtonClicked noon))
             initial in
  let payload : Props := {[ "feedback_text" := JStr "great app" ]} in
  trackEvent sink_init_fails FeedbackSubmitted payload None noon s = (Ok tt, s) /\
  fst (trackEvent sink_init_fails FeedbackSubmitted payload (Some CbThrows) noon s) =
    Throw CallbackExn.
Proof.
  intros s payload. split.
  - apply (full_queue_drop_outcome sink_init_fails FeedbackSubmitted payload None noon).
    + vm_compute. reflexivity.
    + vm_compute. lia.
  - rewrite (full_queue_drop_outcome sink_init_fails FeedbackSubmitted payload
               (Some CbThrows) noon).
    + reflexivity.
    + vm_compute. reflexivity.
    + vm_compute. lia.
Defined.

(** X8. Once the module is ready, [trackEvent] makes exactly one
    [mixpanel.track] call, with the enriched payload and the caller's
    callback, and never touches the queue: a send that throws is logged with
    [console.error] and the event is lost, neither queued nor retried. *)
Theorem direct_send_when_ready (env : Env) (e : EventName) (p : Props)
    (cb : option Callback) (now : Now) (s : State) :
  mixpanelInitialized s = true ->
  sinkCalls (snd (trackEvent env e p cb now s)) =
    sinkCalls s ++ [STrack (event_name_string e) (enrich e p now) (is_some cb)] /\
  eventBackupQueue (snd (trackEvent env e p cb now s)) = eventBackupQueue s /\
  timers (snd (trackEvent env e p cb now s)) = timers s /\
  console (snd (trackEvent env e p cb now s)) =
    console s ++
    (if mixpanelDebugMode s
     then [LogTracking (event_name_string e) (enrich e p now)] else []) ++
    (if sink_throws env (sinkCalls s)
          (STrack (event_name_string e) (enrich e p now) (is_some cb))
     then [ErrTrackingFailed (event_name_string e)
             (SinkExn (STrack (event_name_string e) (enrich e p now) (is_some cb)))]
     else []).
Proof.
  intros Hi.
  destruct (trackEvent_state env e p cb now s) as (_ & _ & _ & Ht & Hq & Hs).
  rewrite Hi in Hq, Hs. simpl in Hq.
  split; [done|]. split; [done|]. split; [done|].
  destruct s as [d ini q cl tm sc co cbr]; simpl in Hi; subst ini.
  unfold trackEvent. run_m.
  destruct d; run_m; destruct (sink_throws env sc _); run_m;
    destruct cb as [[]|]; run_m; rewrite <- ?app_assoc, ?app_nil_r; reflexivity.
Qed.

Lemma direct_send_when_ready_witness :
  eventBackupQueue
    (snd (trackEvent sink_ops_fail FeedbackButtonClicked ∅ None noon
            (run sink_ops_fail [OpInit "token" false] initial))) = [] /\
  length (console
    (snd (trackEvent sink_ops_fail FeedbackButtonClicked ∅ None noon
            (run sink_ops_fail [OpInit "token" false] initial)))) = 1.
Proof.
  destruct (direct_send_when_ready sink_ops_fail FeedbackButtonClicked ∅ None noon
              (run sink_ops_fail [OpInit "token" false] initial))
    as (_ & Hq & _ & Hco).
  - vm_compute. reflexivity.
  - split; [rewrite Hq; reflexivity|]. rewrite Hco. reflexivity.
Defined.

(** ** The retry machinery under an arbitrary sink *)

Lemma init_attempts_app (s s' : State) (extra : list SinkCall) :
  sinkCalls s' = sinkCalls s ++ extra ->
  init_attempts s' = init_attempts s + length (List.filter is_init_call extra).
Proof.
  intros Hs. unfold init_attempts. by rewrite Hs, List.filter_app, length_app.
Qed.

Lemma no_init_in_track_calls (q : list QueuedEvent) :
  List.filter is_init_call (track_call <$> q) = [].
Proof. induction q as [|ev q IH]; [done|]. rewrite fmap_cons. simpl. exact IH. Qed.

Lemma one_init_per_attempt (env : Env) (s : State) (i : nat) :
  length (List.filter is_init_call (attempt_calls env s i)) = 1.
Proof. unfold attempt_calls, init_call. by destruct (sink_throws env _ _). Qed.

Lemma attempt_bounded (env : Env) (s : State) (i : nat) :
  Attempting s i -> Bounded (after_initialize env s i).
Proof.
  intros [Hnd Hself (c & Hc) Hpend Hall Hcount].
  assert (0 <= cl_retries c <= 3)%Z as Hr
    by (by eapply (proj1 (Forall_lookup _ _) Hall)).
  assert (i < length (closures s)) as Hlt by (by eapply lookup_lt_Some).
  destruct (attempt_error env s i) as [e|] eqn:Herr.
  - destruct (after_initialize_fail env s i e Herr) as (_ & _ & _ & _ & Hs' & Hcl' & Htm').
    pose proof (init_attempts_app s _ _ Hs') as Hatt.
    rewrite one_init_per_attempt in Hatt.
    unfold closure_at in Hcl', Htm'. rewrite Hc in Hcl', Htm'. simpl in Hcl', Htm'.
    destruct (cl_retries c <? MAX_RETRIES)%Z eqn:Hlt3.
    + apply Z.ltb_lt in Hlt3. unfold MAX_RETRIES in Hlt3.
      rewrite list_lookup_insert_eq in Htm' by done. simpl in Htm'.
      split.
      * rewrite Htm', fmap_app. simpl. apply NoDup_app. split; [done|].
        split; [|apply NoDup_singleton].
        intros j Hj Hj'. apply list_elem_of_singleton in Hj'. by subst.
      * intros t Ht. rewrite Htm' in Ht. apply elem_of_app in Ht as [Ht|Ht].
        -- destruct (Hpend t Ht) as (ct & Hct & Hrt & Hdt). exists ct.
           split; [|done]. rewrite Hcl', list_lookup_insert_ne; [done|].
           intros ->. apply Hself. by apply list_elem_of_fmap_2.
        -- apply list_elem_of_singleton in Ht as ->. simpl.
           eexists. rewrite Hcl', list_lookup_insert_eq by done.
           split; [done|]. simpl. split; [lia|done].
      * rewrite Hcl'. apply Forall_insert; [done|]. simpl. lia.
      * rewrite Hatt, Htm', Hcl', length_app, length_insert. simpl.
        rewrite (total_retries_insert _ i c _ Hc). simpl. lia.
    + split.
      * by rewrite Htm'.
      * intros t Ht. rewrite Htm' in Ht. rewrite Hcl'. by apply Hpend.
      * by rewrite Hcl'.
      * rewrite Hatt, Htm', Hcl'. lia.
  - destruct (after_initialize_ok env s i Herr) as (_ & _ & _ & _ & Hs' & Hcl' & Htm').
    pose proof (init_attempts_app s _ _ Hs') as Hatt.
    rewrite List.filter_app, no_init_in_track_calls in Hatt. simpl in Hatt.
    split.
    + by rewrite Htm'.
    + intros t Ht. rewrite Htm' in Ht. rewrite Hcl'. by apply Hpend.
    + by rewrite Hcl'.
    + rewrite Hatt, Htm', Hcl'. lia.
Qed.

Lemma start_attempting (s : State) (op : Op) (s0 : State) (i : nat) :
  Bounded s -> attempt_of s op = Some (s0, i) -> Attempting s0 i.
Proof.
  intros [Hnd Hpend Hall Hcount] Ha.
  destruct op as [token debug|k| | | |]; simpl in Ha; try done.
  - injection Ha as <- <-. unfold init_attempts in *.
    destruct s as [d ini q cl tm sc co cb]; simpl in *.
    assert (forall j, j ∈ tm_target <$> tm -> j < length cl) as Hlt.
    { intros j Hj. apply list_elem_of_fmap in Hj as (t & -> & Ht).
      destruct (Hpend t Ht) as (c & Hc & _). by eapply lookup_lt_Some. }
    split; simpl; try done.
    + intros Hin. apply Hlt in Hin. lia.
    + exists (mkClosure token 0). by rewrite list_lookup_middle.
    + intros t Ht. destruct (Hpend t Ht) as (c & Hc & Hr). exists c. split; [|done].
      rewrite lookup_app_l; [done|]. by eapply lookup_lt_Some.
    + apply Forall_app. split; [done|]. constructor; [simpl; lia|constructor].
    + unfold init_attempts; simpl. rewrite total_retries_app, length_app. simpl. lia.
  - destruct (timers s !! k) as [t|] eqn:Ht; [|done].
    injection Ha as <- <-. unfold init_attempts in *.
    destruct s as [d ini q cl tm sc co cb]; simpl in *.
    pose proof (take_drop_middle tm k t Ht) as Hsplit.
    rewrite delete_take_drop.
    set (l1 := take k tm) in *. set (l2 := drop (S k) tm) in *. clearbody l1 l2.
    subst tm. rewrite fmap_app, fmap_cons in Hnd.
    apply NoDup_app in Hnd as (Hnd1 & Hdisj & Hnd2).
    apply NoDup_cons in Hnd2 as (Hnot2 & Hnd2).
    assert (tm_target t ∉ tm_target <$> l1) as Hnot1.
    { intros Hin. apply (Hdisj _ Hin). apply elem_of_cons. by left. }
    split; simpl; try done.
    + rewrite fmap_app. apply NoDup_app. split; [done|]. split; [|done].
      intros j Hj Hj'. apply (Hdisj _ Hj). apply elem_of_cons. by right.
    + rewrite fmap_app. apply not_elem_of_app. by split.
    + destruct (Hpend t) as (c & Hc & _); [|by exists c].
      apply elem_of_app. right. apply elem_of_cons. by left.
    + intros t' Ht'. apply Hpend.
      apply elem_of_app in Ht' as [Ht'|Ht']; apply elem_of_app; [by left|right].
      apply elem_of_cons. by right.
    + unfold init_attempts; simpl. rewrite !length_app in *. simpl in *. lia.
Qed.

Lemma bounded_step (env : Env) (s : State) (op : Op) :
  Bounded s ->
  Bounded (step env s op) /\
  length (closures (step env s op)) =
    length (closures s) + (if is_init_op op then 1 else 0).
Proof.
  intros Hb.
  destruct (step_kind env s op) as [s0 i Ha Hs|k -> Hk Hs|e p cb now Ha Hs|u props ->| ->].
  - rewrite Hs. split.
    + apply attempt_bounded. by eapply start_attempting.
    + assert (length (closures (after_initialize env s0 i)) = length (closures s0)) as ->.
      { destruct (attempt_error env s0 i) as [e|] eqn:Herr.
        - destruct (after_initialize_fail env s0 i e Herr)
            as (_ & _ & _ & _ & _ & Hcl & _).
          rewrite Hcl. destruct (_ <? _)%Z; [by rewrite length_insert|done].
        - destruct (after_initialize_ok env s0 i Herr) as (_ & _ & _ & _ & _ & Hcl & _).
          by rewrite Hcl. }
      destruct op; simpl in Ha; try done.
      * injection Ha as <- <-. destruct s; simpl. by rewrite length_app.
      * destruct (timers s !! k); [|done]. injection Ha as <- <-.
        destruct s; simpl. lia.
  - rewrite Hs. simpl. split; [done|lia].
  - rewrite Hs. destruct Hb as [Hnd Hpend Hall Hcount].
    destruct (trackEvent_state env e p cb now s) as (_ & _ & Hcl & Htm & _ & Hsc).
    assert (init_attempts (snd (trackEvent env e p cb now s)) = init_attempts s) as Hatt.
    { unfold init_attempts. rewrite Hsc. destruct (mixpanelInitialized s); [|done].
      rewrite List.filter_app, length_app. simpl. lia. }
    split.
    + split; rewrite ?Hcl, ?Htm, ?Hatt; done.
    + rewrite Hcl. destruct op; simpl in *; try done; lia.
  - unfold step; simpl. destruct Hb as [Hnd Hpend Hall Hcount].
    destruct (identifyUser_state env u props s)
      as (_ & _ & _ & Hcl & Htm & _ & _ & Hsc).
    assert (init_attempts (snd (identifyUser env u props s)) = init_attempts s) as Hatt.
    { unfold init_attempts. rewrite Hsc. destruct (mixpanelInitialized s); [|done].
      rewrite List.filter_app, length_app. unfold identify_calls.
      destruct (sink_throws env _ _); [simpl; lia|]. destruct props; simpl; lia. }
    split.
    + split; rewrite ?Hcl, ?Htm, ?Hatt; done.
    + rewrite Hcl. lia.
  - unfold step; simpl. destruct Hb as [Hnd Hpend Hall Hcount].
    destruct (resetUser_state env s) as (_ & _ & _ & Hcl & Htm & _ & _ & Hsc).
    assert (init_attempts (snd (resetUser env s)) = init_attempts s) as Hatt.
    { unfold init_attempts. rewrite Hsc. destruct (mixpanelInitialized s); [|done].
      rewrite List.filter_app, length_app. simpl. lia. }
    split.
    + split; rewrite ?Hcl, ?Htm, ?Hatt; done.
    + rewrite Hcl. lia.
Qed.

Lemma bounded_run (env : Env) (ops : list Op) :
  Bounded (run env ops initial) /\
  length (closures (run env ops initial)) = n_inits ops.
Proof.
  induction ops as [|op ops [IH Hn]] using rev_ind.
  - split; [|done]. split; simpl; try done.
    + constructor.
    + intros t Ht. by apply elem_of_nil in Ht.
  - rewrite run_snoc, n_inits_snoc.
    destruct (bounded_step env _ op IH) as (Hb & Hlen).
    split; [done|lia].
Qed.

(** Distinct pending retries belong to distinct closures whose counters are
    at least 1, so there are no more of them than the counters add up to. *)
Lemma pending_le_total (targets : list nat) :
  forall cl : list InitClosure,
    NoDup targets ->
    (forall i, i ∈ targets -> exists c, cl !! i = Some c /\ (1 <= cl_retries c)%Z) ->
    Forall (fun c => (0 <= cl_retries c)%Z) cl ->
    (Z.of_nat (length targets) <= total_retries cl)%Z.
Proof.
  induction targets as [|i targets IH]; intros cl Hnd Hpend Hall.
  - simpl. clear Hnd Hpend. induction Hall as [|c cl Hc _ IHc]; simpl; [lia|].
    fold (total_retries cl). lia.
  - apply NoDup_cons in Hnd as (Hni & Hnd).
    destruct (Hpend i) as (c & Hc & Hr); [apply elem_of_cons; by left|].
    pose proof (total_retries_insert cl i c (mkClosure (cl_token c) 0) Hc) as Hins.
    simpl in Hins.
    specialize (IH (<[i := mkClosure (cl_token c) 0]> cl) Hnd).
    simpl. rewrite Hins in IH.
    assert (Z.of_nat (length targets) <= total_retries cl - cl_retries c + 0)%Z; [|lia].
    apply IH.
    + intros j Hj. destruct (Hpend j) as (cj & Hcj & Hrj); [apply elem_of_cons; by right|].
      exists cj. split; [|done]. rewrite list_lookup_insert_ne; [done|].
      by intros ->.
    + apply Forall_insert; [done|]. simpl. lia.
Qed.

(** X9. Whatever the sink does, every [initMixpanel] call accounts for at
    least one and at most four [mixpanel.init] calls; no closure ever has two
    retries pending at once; a pending retry was scheduled after 2000, 4000 or
    8000 ms; and no retry counter leaves the range 0..3. *)
Theorem retries_are_bounded_for_any_sink (env : Env) (ops : list Op) :
  n_inits ops <= init_attempts (run env ops initial) <= 4 * n_inits ops /\
  NoDup (tm_target <$> timers (run env ops initial)) /\
  Forall (fun t => tm_delay t = 2000%Z \/ tm_delay t = 4000%Z \/ tm_delay t = 8000%Z)
         (timers (run env ops initial)) /\
  Forall (fun c => (0 <= cl_retries c <= 3)%Z) (closures (run env ops initial)).
Proof.
  destruct (bounded_run env ops) as ([Hnd Hpend Hall Hcount] & Hn).
  pose proof (total_retries_bounds _ 0 3 Hall) as Hb.
  assert (Z.of_nat (length (timers (run env ops initial))) <=
          total_retries (closures (run env ops initial)))%Z as Hle.
  { rewrite <- (length_fmap tm_target). apply pending_le_total; [done| |].
    - intros i Hi. apply list_elem_of_fmap in Hi as (t & -> & Ht).
      destruct (Hpend t Ht) as (c & Hc & Hr & _). exists c. split; [done|lia].
    - eapply Forall_impl; [exact Hall|]. simpl. lia. }
  split; [lia|]. split; [done|]. split; [|done].
  apply Forall_forall. intros t Ht.
  destruct (Hpend t Ht) as (c & _ & Hr & Hd). rewrite Hd.
  assert (cl_retries c = 1 \/ cl_retries c = 2 \/ cl_retries c = 3)%Z as Hcases by lia.
  destruct Hcases as [Hc|[Hc|Hc]]; rewrite Hc; auto.
Qed.

(** ** Recovery after failed attempts *)

Lemma init_start_fields (s : State) (token : string) (debug : bool) :
  let s0 := set_closures (closures s ++ [mkClosure token 0]) (set_debug debug s) in
  closures s0 = closures s ++ [mkClosure token 0] /\
  mixpanelDebugMode s0 = debug /\
  timers s0 = timers s /\
  sinkCalls s0 = sinkCalls s /\
  eventBackupQueue s0 = eventBackupQueue s /\
  mixpanelInitialized s0 = mixpanelInitialized s.
Proof. by destruct s. Qed.

Lemma timer_start_fields (s : State) (tm : list Timer) :
  let s0 := set_timers tm s in
  closures s0 = closures s /\
  mixpanelDebugMode s0 = mixpanelDebugMode s /\
  timers s0 = tm /\
  sinkCalls s0 = sinkCalls s /\
  eventBackupQueue s0 = eventBackupQueue s /\
  mixpanelInitialized s0 = mixpanelInitialized s.
Proof. by destruct s. Qed.

(** The host application's calls alone never reach the sink nor the retry
    machinery. *)
Lemma callers_only_state (env : Env) (ops : list Op) :
  forallb is_caller_op ops = true ->
  closures (run env ops initial) = [] /\
  timers (run env ops initial) = [] /\
  sinkCalls (run env ops initial) = [] /\
  mixpanelInitialized (run env ops initial) = false.
Proof.
  induction ops as [|op ops IH] using rev_ind; intros Hall; [done|].
  rewrite forallb_app in Hall. apply andb_prop in Hall as (Hops & Hop).
  simpl in Hop. rewrite andb_true_r in Hop.
  destruct (IH Hops) as (Hcl & Htm & Hsc & Hi).
  rewrite run_snoc.
  destruct (step_kind env (run env ops initial) op)
    as [s0 i Ha Hs|k -> Hk Hs|e p cb now Ha Hs|u props ->| ->].
  - destruct op; simpl in *; try done.
  - done.
  - rewrite Hs.
    destruct (trackEvent_state env e p cb now (run env ops initial))
      as (_ & Hi' & Hcl' & Htm' & _ & Hsc').
    rewrite Hi in Hsc'. by rewrite Hi', Hcl', Htm', Hsc'.
  - unfold step; simpl.
    destruct (identifyUser_state env u props (run env ops initial))
      as (_ & _ & Hi' & Hcl' & Htm' & _ & _ & Hsc').
    rewrite Hi in Hsc'. by rewrite Hi', Hcl', Htm', Hsc'.
  - unfold step; simpl.
    destruct (resetUser_state env (run env ops initial))
      as (_ & _ & Hi' & Hcl' & Htm' & _ & _ & Hsc').
    rewrite Hi in Hsc'. by rewrite Hi', Hcl', Htm', Hsc'.
Qed.

Lemma failed_retry_fields (env : Env) (s : State) (i : nat) (c : InitClosure) :
  closures s !! i = Some c ->
  sink_throws env (sinkCalls s) (init_call s i) = true ->
  (cl_retries c < 3)%Z ->
  mixpanelInitialized (after_initialize env s i) = mixpanelInitialized s /\
  mixpanelDebugMode (after_initialize env s i) = mixpanelDebugMode s /\
  eventBackupQueue (after_initialize env s i) = eventBackupQueue s /\
  sinkCalls (after_initialize env s i) = sinkCalls s ++ [init_call s i] /\
  closures (after_initialize env s i) =
    <[i := mkClosure (cl_token c) (cl_retries c + 1)]> (closures s) /\
  timers (after_initialize env s i) =
    timers s ++ [mkTimer (1000 * 2 ^ (cl_retries c + 1)) i].
Proof.
  intros Hc Hthrow Hr.
  assert (attempt_error env s i = Some (SinkExn (init_call s i))) as Herr
    by (unfold attempt_error; by rewrite Hthrow).
  destruct (after_initialize_fail env s i _ Herr) as (Hd & Hi & Hq & _ & Hs & Hcl & Htm).
  unfold attempt_calls in Hs. rewrite Hthrow in Hs.
  unfold closure_at in Hcl, Htm. rewrite Hc in Hcl, Htm. simpl in Hcl, Htm.
  assert ((cl_retries c <? MAX_RETRIES)%Z = true) as Hlt by (by apply Z.ltb_lt).
  rewrite Hlt in Hcl, Htm.
  rewrite list_lookup_insert_eq in Htm by (by eapply lookup_lt_Some).
  done.
Qed.

Lemma length_filter_all (l : list SinkCall) :
  Forall (fun c => is_init_call c = true) l ->
  length (List.filter is_init_call l) = length l.
Proof.
  induction 1 as [|c l Hc _ IH]; simpl; [done|]. rewrite Hc. simpl. by rewrite IH.
Qed.

Lemma no_event_in_init_calls (l : list SinkCall) :
  Forall (fun c => is_init_call c = true) l -> omap as_event l = [].
Proof.
  induction 1 as [|c l Hc _ IH]; [done|]. by destruct c.
Qed.

(** The state after [initMixpanel] and [j] retries, all failed. *)
Lemma failing_prefix (env : Env) (k : nat) (ops : list Op) (token : string)
    (debug : bool) :
  recovers_after k env -> k <= 3 -> forallb is_caller_op ops = true ->
  forall j, j < k ->
    mixpanelInitialized
      (run env (ops ++ OpInit token debug :: replicate j (OpTimer 0)) initial) = false /\
    mixpanelDebugMode
      (run env (ops ++ OpInit token debug :: replicate j (OpTimer 0)) initial) = debug /\
    closures (run env (ops ++ OpInit token debug :: replicate j (OpTimer 0)) initial) =
      [mkClosure token (Z.of_nat (S j))] /\
    timers (run env (ops ++ OpInit token debug :: replicate j (OpTimer 0)) initial) =
      [mkTimer (1000 * 2 ^ Z.of_nat (S j)) 0] /\
    Forall (fun c => is_init_call c = true)
      (sinkCalls (run env (ops ++ OpInit token debug :: replicate j (OpTimer 0)) initial)) /\
    length (sinkCalls
      (run env (ops ++ OpInit token debug :: replicate j (OpTimer 0)) initial)) = S j /\
    eventBackupQueue
      (run env (ops ++ OpInit token debug :: replicate j (OpTimer 0)) initial) =
      eventBackupQueue (run env ops initial).
Proof.
  intros (Hinit & Hreg) Hk Hcallers.
  destruct (callers_only_state env ops Hcallers) as (Hcl & Htm & Hsc & Hi).
  induction j as [|j IH]; intros Hj.
  - simpl. rewrite run_snoc. unfold step; simpl. rewrite initMixpanel_eq. simpl.
    destruct (init_start_fields (run env ops initial) token debug)
      as (Hcl0 & Hd0 & Htm0 & Hsc0 & Hq0 & Hi0).
    set (s0 := set_closures _ _) in *. clearbody s0.
    rewrite Hcl in *. simpl in Hcl0. simpl.
    destruct (failed_retry_fields env s0 0 (mkClosure token 0))
      as (Hi' & Hd' & Hq' & Hs' & Hcl' & Htm').
    + by rewrite Hcl0.
    + unfold init_call. rewrite Hinit, Hsc0, Hsc. simpl. by apply Nat.ltb_lt.
    + simpl. lia.
    + rewrite Hi', Hd', Hq', Hs', Hcl', Htm', Hcl0, Htm0, Hsc0, Hi0, Hsc, Htm, Hq0.
      simpl. repeat split; try done; by repeat constructor.
  - destruct IH as (Hi' & Hd' & Hcl' & Htm' & Hall & Hlen & Hq'); [lia|].
    assert (ops ++ OpInit token debug :: replicate (S j) (OpTimer 0) =
            (ops ++ OpInit token debug :: replicate j (OpTimer 0)) ++ [OpTimer 0]) as ->.
    { rewrite <- app_assoc. simpl. f_equal. f_equal.
      change (OpTimer 0 :: replicate j (OpTimer 0)) with (replicate (S j) (OpTimer 0)).
      by rewrite replicate_S_end. }
    rewrite run_snoc.
    set (s := run env (ops ++ OpInit token debug :: replicate j (OpTimer 0)) initial) in *.
    clearbody s. unfold step; simpl. rewrite fire_timer_eq, Htm'. simpl.
    destruct (timer_start_fields s []) as (Hcl0 & Hd0 & Htm0 & Hsc0 & Hq0 & Hi0).
    set (s0 := set_timers [] s) in *. clearbody s0.
    destruct (failed_retry_fields env s0 0 (mkClosure token (Z.of_nat (S j))))
      as (Hi2 & Hd2 & Hq2 & Hs2 & Hcl2 & Htm2).
    + by rewrite Hcl0, Hcl'.
    + unfold init_call. rewrite Hinit, Hsc0, (length_filter_all _ Hall), Hlen.
      apply Nat.ltb_lt. lia.
    + simpl. lia.
    + rewrite Hi2, Hd2, Hq2, Hs2, Hcl2, Htm2, Hcl0, Htm0, Hsc0, Hi0, Hd0, Hq0, Hcl'.
      simpl. rewrite length_app, Hlen. simpl.
      assert (Z.of_nat (S j) + 1 = Z.of_nat (S (S j)))%Z as -> by lia.
      split; [done|]. split; [done|]. split; [done|]. split; [done|].
      split; [|split; [lia|done]].
      apply Forall_app. split; [done|]. by repeat constructor.
Qed.

Lemma successful_attempt_fields (env : Env) (s : State) (i : nat) :
  Forall (fun c => is_init_call c = true) (sinkCalls s) ->
  sink_throws env (sinkCalls s) (init_call s i) = false ->
  sink_throws env (sinkCalls s ++ [init_call s i]) (register_call env) = false ->
  mixpanelInitialized (after_initialize env s i) = true /\
  eventBackupQueue (after_initialize env s i) = [] /\
  delivered (after_initialize env s i) = eventBackupQueue s /\
  init_attempts (after_initialize env s i) = S (length (sinkCalls s)) /\
  closures (after_initialize env s i) = closures s /\
  timers (after_initialize env s i) = timers s.
Proof.
  intros Hall Hinit Hreg.
  assert (attempt_error env s i = None) as Herr
    by (unfold attempt_error; by rewrite Hinit, Hreg).
  destruct (after_initialize_ok env s i Herr) as (_ & Hi & Hq & _ & Hs & Hcl & Htm).
  split; [done|]. split; [done|]. split; [|split; [|done]].
  - unfold delivered. rewrite Hs, !omap_app, as_event_track_calls.
    rewrite (no_event_in_init_calls _ Hall). unfold register_call, init_call. done.
  - unfold init_attempts.
    rewrite Hs, !List.filter_app, no_init_in_track_calls, !length_app.
    rewrite (length_filter_all _ Hall). unfold register_call, init_call. simpl. lia.
Qed.

(** X10. Recovery: with a sink whose [init] throws on its first [k] calls
    ([k] at most [MAX_RETRIES]) and returns afterwards, [initMixpanel]
    followed by the [k] retries makes exactly [k + 1] [mixpanel.init] calls,
    the [j]-th retry having been scheduled after [1000 * 2 ^ j] ms; it ends
    with the module ready, no retry pending, and the events the host
    application tracked before (up to capacity) delivered in order. *)
Theorem init_recovers_after_failures (env : Env) (k : nat) (ops : list Op)
    (token : string) (debug : bool) :
  recovers_after k env -> k <= 3 -> forallb is_caller_op ops = true ->
  mixpanelInitialized
    (run env (ops ++ OpInit token debug :: replicate k (OpTimer 0)) initial) = true /\
  init_attempts
    (run env (ops ++ OpInit token debug :: replicate k (OpTimer 0)) initial) = S k /\
  timers (run env (ops ++ OpInit token debug :: replicate k (OpTimer 0)) initial) = [] /\
  closures (run env (ops ++ OpInit token debug :: replicate k (OpTimer 0)) initial) =
    [mkClosure token (Z.of_nat k)] /\
  delivered (run env (ops ++ OpInit token debug :: replicate k (OpTimer 0)) initial) =
    take MAX_QUEUE_SIZE (tracked env ops) /\
  eventBackupQueue
    (run env (ops ++ OpInit token debug :: replicate k (OpTimer 0)) initial) = [] /\
  (forall j, j < k ->
     timers (run env (ops ++ OpInit token debug :: replicate j (OpTimer 0)) initial) =
       [mkTimer (1000 * 2 ^ Z.of_nat (S j)) 0]).
Proof.
  intros Hrec Hk Hcallers.
  destruct (callers_only_state env ops Hcallers) as (Hcl & Htm & Hsc & Hi).
  destruct (run_invariant env ops) as (_ & Hwait & _).
  destruct (Hwait Hi) as (_ & Hqueue).
  assert (forall j, j < k ->
     timers (run env (ops ++ OpInit token debug :: replicate j (OpTimer 0)) initial) =
       [mkTimer (1000 * 2 ^ Z.of_nat (S j)) 0]) as Hdelays.
  { intros j Hj.
    by destruct (failing_prefix env k ops token debug Hrec Hk Hcallers j Hj)
      as (_ & _ & _ & H & _). }
  destruct k as [|k].
  - simpl. rewrite run_snoc. unfold step; simpl. rewrite initMixpanel_eq. simpl.
    destruct (init_start_fields (run env ops initial) token debug)
      as (Hcl0 & Hd0 & Htm0 & Hsc0 & Hq0 & Hi0).
    set (s0 := set_closures _ _) in *. clearbody s0.
    rewrite Hcl in *. simpl in Hcl0. simpl.
    destruct Hrec as (Hinit & Hreg).
    destruct (successful_attempt_fields env s0 0) as (Hi' & Hq' & Hd' & Ha' & Hcl' & Htm').
    + rewrite Hsc0, Hsc. constructor.
    + unfold init_call. by rewrite Hinit, Hsc0, Hsc.
    + unfold register_call. by rewrite Hreg.
    + rewrite Hi', Hq', Hd', Ha', Hcl', Htm', Hcl0, Htm0, Hsc0, Hsc, Htm, Hq0, Hqueue.
      done.
  - destruct (failing_prefix env (S k) ops token debug Hrec Hk Hcallers k)
      as (Hi' & Hd' & Hcl' & Htm' & Hall & Hlen & Hq'); [lia|].
    assert (ops ++ OpInit token debug :: replicate (S k) (OpTimer 0) =
            (ops ++ OpInit token debug :: replicate k (OpTimer 0)) ++ [OpTimer 0]) as ->.
    { rewrite <- app_assoc. simpl. f_equal. f_equal.
      change (OpTimer 0 :: replicate k (OpTimer 0)) with (replicate (S k) (OpTimer 0)).
      by rewrite replicate_S_end. }
    rewrite run_snoc.
    set (s := run env (ops ++ OpInit token debug :: replicate k (OpTimer 0)) initial) in *.
    clearbody s. unfold step; simpl. rewrite fire_timer_eq, Htm'. simpl.
    destruct (timer_start_fields s []) as (Hcl0 & Hd0 & Htm0 & Hsc0 & Hq0 & Hi0).
    set (s0 := set_timers [] s) in *. clearbody s0.
    destruct Hrec as (Hinit & Hreg).
    destruct (successful_attempt_fields env s0 0) as (Hi2 & Hq2 & Hd2 & Ha2 & Hcl2 & Htm2).
    + by rewrite Hsc0.
    + unfold init_call. rewrite Hinit, Hsc0, (length_filter_all _ Hall), Hlen.
      by apply Nat.ltb_irrefl.
    + unfold register_call. by rewrite Hreg.
    + rewrite Hi2, Hq2, Hd2, Ha2, Hcl2, Htm2, Hcl0, Htm0, Hsc0, Hq0, Hcl', Hlen, Hq', Hqueue.
      done.
Qed.

Lemma init_recovers_after_failures_witness :
  init_attempts
    (run (sink_recovers_after 2)
         ([OpHelper (TrackFeedbackSubmission "great app") noon] ++
          OpInit "token" false :: replicate 2 (OpTimer 0)) initial) = 3 /\
  timers
    (run (sink_recovers_after 2)
         ([OpHelper (TrackFeedbackSubmission "great app") noon] ++
          OpInit "token" false :: replicate 1 (OpTimer 0)) initial) =
    [mkTimer 4000 0].
Proof.
  destruct (init_recovers_after_failures (sink_recovers_after 2) 2
              [OpHelper (TrackFeedbackSubmission "great app") noon] "token" false)
    as (_ & Hatt & _ & _ & _ & _ & Hdelays).
  - split; reflexivity.
  - lia.
  - reflexivity.
  - split; [exact Hatt|]. apply (Hdelays 1). lia.
Defined.

(** ** Registration precedes delivery *)

(** The calls the sink has received are never taken back: a step appends. *)
Lemma step_appends (env : Env) (s : State) (op : Op) :
  exists extra, sinkCalls (step env s op) = sinkCalls s ++ extra.
Proof.
  destruct (step_kind env s op) as [s0 i Ha Hs|k -> Hk Hs|e p cb now Ha Hs|u props ->| ->].
  - destruct (attempt_of_frame _ _ _ _ Ha) as (_ & _ & Hc0 & _).
    rewrite Hs. destruct (attempt_error env s0 i) as [e|] eqn:He.
    + destruct (after_initialize_fail _ _ _ _ He) as (_ & _ & _ & _ & Hc' & _).
      eexists. by rewrite Hc', Hc0.
    + destruct (after_initialize_ok _ _ _ He) as (_ & _ & _ & _ & Hc' & _).
      eexists. by rewrite Hc', Hc0.
  - rewrite Hs. exists []. by rewrite app_nil_r.
  - rewrite Hs.
    destruct (trackEvent_state env e p cb now s) as (_ & _ & _ & _ & _ & Hc).
    rewrite Hc. destruct (mixpanelInitialized s); eexists; [done|by rewrite app_nil_r].
  - unfold step; simpl.
    destruct (identifyUser_state env u props s) as (_ & _ & _ & _ & _ & _ & _ & Hc).
    rewrite Hc. destruct (mixpanelInitialized s); eexists; [done|by rewrite app_nil_r].
  - unfold step; simpl.
    destruct (resetUser_state env s) as (_ & _ & _ & _ & _ & _ & _ & Hc).
    rewrite Hc. destruct (mixpanelInitialized s); eexists; [done|by rewrite app_nil_r].
Qed.

Lemma ready_step_calls (env : Env) (s : State) (op : Op) :
  mixpanelInitialized s = false ->
  mixpanelInitialized (step env s op) = true ->
  exists c1, is_init_call c1 = true /\
    sink_throws env (sinkCalls s) c1 = false /\
    sink_throws env (sinkCalls s ++ [c1]) (register_call env) = false /\
    sinkCalls (step env s op) =
      sinkCalls s ++ [c1; register_call env] ++ (track_call <$> eventBackupQueue s).
Proof.
  intros Hi Hi'.
  destruct (step_kind env s op) as [s0 i Ha Hs|k -> Hk Hs|e p cb now Ha Hs|u props ->| ->].
  - destruct (attempt_of_frame _ _ _ _ Ha) as (Hi0 & Hq0 & Hc0 & _).
    rewrite Hs in *. destruct (attempt_error env s0 i) as [e|] eqn:He.
    + destruct (after_initialize_fail _ _ _ _ He) as (_ & Hi2 & _). congruence.
    + destruct (after_initialize_ok _ _ _ He) as (_ & _ & _ & _ & Hc' & _).
      exists (init_call s0 i). unfold attempt_error in He. rewrite Hc0 in He.
      destruct (sink_throws env (sinkCalls s) (init_call s0 i)) eqn:E1; [done|].
      destruct (sink_throws env (sinkCalls s ++ [init_call s0 i]) (register_call env))
        eqn:E2; [done|].
      repeat split; try done. congruence.
  - rewrite Hs in Hi'. congruence.
  - rewrite Hs in Hi'.
    destruct (trackEvent_state env e p cb now s) as (_ & Hi2 & _). congruence.
  - unfold step in Hi'; simpl in Hi'.
    destruct (identifyUser_state env u props s) as (_ & _ & Hi2 & _). congruence.
  - unfold step in Hi'; simpl in Hi'.
    destruct (resetUser_state env s) as (_ & _ & Hi2 & _). congruence.
Qed.

(** X11. The module is ready only after a [mixpanel.register] call that
    returned: in every ready state the calls received by the sink are some
    [init] and [register] calls, then the [register] call of the successful
    attempt (the default properties [platform] and [app_version]), and only
    after it any [track], [identify], [people.set] or [reset] call. *)
Theorem registered_before_anything_is_sent (env : Env) (ops : list Op) :
  mixpanelInitialized (run env ops initial) = true ->
  exists pre post,
    sinkCalls (run env ops initial) = pre ++ register_call env :: post /\
    Forall (fun c => is_setup_call c = true) pre /\
    sink_throws env pre (register_call env) = false.
Proof.
  induction ops as [|op ops IH] using rev_ind; intros Hi; [done|].
  rewrite run_snoc in *.
  destruct (mixpanelInitialized (run env ops initial)) eqn:Hprev.
  - destruct (IH eq_refl) as (pre & post & Hs & Hpre & Hreg).
    destruct (step_appends env (run env ops initial) op) as (extra & ->).
    exists pre, (post ++ extra). rewrite Hs, <- app_assoc. done.
  - destruct (ready_step_calls env _ op Hprev Hi) as (c1 & Hc1 & _ & Hreg & ->).
    exists (sinkCalls (run env ops initial) ++ [c1]),
           (track_call <$> eventBackupQueue (run env ops initial)).
    split; [by rewrite <- app_assoc|]. split; [|done].
    apply Forall_app. split; [by apply waiting_calls|].
    constructor; [by destruct c1|constructor].
Qed.

Lemma registered_before_anything_is_sent_witness :
  exists pre post,
    sinkCalls (run (sink_recovers_after 1)
                   [OpHelper TrackFeedbackButtonClicked noon; OpInit "token" false;
                    OpTimer 0; OpReset] initial) =
      pre ++ register_call (sink_recovers_after 1) :: post /\
    Forall (fun c => is_setup_call c = true) pre.
Proof.
  destruct (registered_before_anything_is_sent (sink_recovers_after 1)
              [OpHelper TrackFeedbackButtonClicked noon; OpInit "token" false;
               OpTimer 0; OpReset]) as (pre & post & Hs & Hpre & _).
  - vm_compute. reflexivity.
  - by exists pre, post.
Defined.

(** ** Platform detection *)

Lemma starts_with_ci_spec (p : string) :
  forall s : string,
    starts_with_ci p s = true <->
    exists m post, s = String.append m post /\ lower_string m = lower_string p.
Proof.
  induction p as [|a p IH]; intros s.
  - split; [intros _; by exists EmptyString, s|]. by destruct s.
  - destruct s as [|b s]; simpl.
    + split; [done|]. intros (m & post & Hs & Hm). by destruct m.
    + rewrite andb_true_iff, IH. split.
      * intros (Hab & m & post & -> & Hm). apply Ascii.eqb_eq in Hab.
        exists (String b m), post. split; [done|]. simpl. by rewrite Hm, Hab.
      * intros (m & post & Hs & Hm). destruct m as [|b' m]; [done|].
        simpl in Hs, Hm. injection Hs as -> ->. injection Hm as Hb Hm.
        split; [apply Ascii.eqb_eq; by rewrite Hb|]. by exists m, post.
Qed.

Lemma test_ci_spec (p : string) :
  forall s : string, test_ci p s = true <-> occurs_ci p s.
Proof.
  induction s as [|c s IH].
  - simpl. rewrite orb_false_r, starts_with_ci_spec. split.
    + intros (m & post & Hs & Hm). by exists EmptyString, m, post.
    + intros (pre & m & post & Hs & Hm). destruct pre; [|done]. by exists m, post.
  - simpl. rewrite orb_true_iff, starts_with_ci_spec, IH. split.
    + intros [(m & post & Hs & Hm)|(pre & m & post & -> & Hm)].
      * by exists EmptyString, m, post.
      * by exists (String c pre), m, post.
    + intros (pre & m & post & Hs & Hm). destruct pre as [|c' pre].
      * left. by exists m, post.
      * right. simpl in Hs. injection Hs as -> ->. by exists pre, m, post.
Qed.

(** X12. Platform detection ([/Mobi|Android/i.test(navigator.userAgent)]): the
    platform registered with the sink and reported by [trackSessionStart] is
    ["mobile"] exactly when the user agent contains [Mobi] or [Android] in any
    letter case, and ["web"] otherwise. *)
Theorem platform_is_mobile_iff (ua : string) :
  (platform_of ua = "mobile" <-> occurs_ci "Mobi" ua \/ occurs_ci "Android" ua) /\
  (platform_of ua = "web" <-> ~ (occurs_ci "Mobi" ua \/ occurs_ci "Android" ua)).
Proof.
  rewrite <- !test_ci_spec, <- orb_true_iff. unfold platform_of.
  destruct (test_ci "Mobi" ua || test_ci "Android" ua); repeat split; done.
Qed.

Example platform_examples :
  platform_of "Mozilla/5.0 (Linux; ANDROID 14; Pixel 8)" = "mobile" /\
  platform_of "Mozilla/5.0 (iPhone; CPU iPhone OS 17_0) mobile/15E148" = "mobile" /\
  platform_of "Mozilla/5.0 (X11; Linux x86_64) Gecko/20100101 Firefox/125.0" = "web".
Proof. repeat split. Qed.

(** ** Console output without debug mode *)

Lemma flush_errors_quiet (env : Env) (q : list QueuedEvent) :
  forall hist, Forall (fun l => is_debug_line l = false) (flush_errors env hist q).
Proof.
  induction q as [|ev q IH]; intros hist; simpl; [constructor|].
  apply Forall_app. split; [|apply IH].
  destruct (sink_throws env _ _); by repeat constructor.
Qed.

Ltac quiet_extra :=
  eexists; split;
  [ first [ reflexivity
          | symmetry; apply app_nil_r
          | rewrite <- ?app_assoc; reflexivity ]
  | by repeat constructor ].

Lemma quiet_attempt (env : Env) (s : State) (i : nat) :
  mixpanelDebugMode s = false ->
  mixpanelDebugMode (after_initialize env s i) = false /\
  exists extra, console (after_initialize env s i) = console s ++ extra /\
                Forall (fun l => is_debug_line l = false) extra.
Proof.
  intros Hd. split.
  { destruct (attempt_error env s i) as [e|] eqn:He.
    - destruct (after_initialize_fail _ _ _ _ He) as (Hd' & _). congruence.
    - destruct (after_initialize_ok _ _ _ He) as (Hd' & _). congruence. }
  unfold after_initialize.
  destruct (attempt_error env s i) as [e|].
  - unfold after_catch, at_catch, attempt_log.
    destruct s as [d ini q cl tm sc co cbr]; simpl in *. subst d. simpl.
    destruct (_ <? _)%Z; simpl; rewrite app_nil_r; quiet_extra.
  - rewrite flushEventQueue_eq. unfold at_flush, drained.
    destruct s as [d ini q cl tm sc co cbr]; simpl in *. subst d. simpl.
    destruct q as [|ev q]; simpl.
    + quiet_extra.
    + rewrite app_nil_r. eexists. split; [reflexivity|].
      apply (flush_errors_quiet env (ev :: q)).
Qed.

Lemma quiet_step (env : Env) (s : State) (op : Op) :
  mixpanelDebugMode s = false -> enables_debug op = false ->
  mixpanelDebugMode (step env s op) = false /\
  exists extra, console (step env s op) = console s ++ extra /\
                Forall (fun l => is_debug_line l = false) extra.
Proof.
  intros Hd Hop.
  assert (forall e p cb now,
    mixpanelDebugMode (snd (trackEvent env e p cb now s)) = false /\
    exists extra, console (snd (trackEvent env e p cb now s)) = console s ++ extra /\
                  Forall (fun l => is_debug_line l = false) extra) as Htrack.
  { intros e p cb now. split.
    - destruct (trackEvent_state env e p cb now s) as (Hd' & _). congruence.
    - destruct s as [d ini q cl tm sc co cbr]; simpl in Hd; subst d.
      unfold trackEvent. run_m. destruct ini; run_m.
      + destruct (sink_throws env sc _); run_m; destruct cb as [[]|]; run_m;
          quiet_extra.
      + destruct (length q <? MAX_QUEUE_SIZE)%nat; run_m;
          destruct cb as [[]|]; run_m; quiet_extra. }
  destruct op as [token debug|k|e p cb now|u props| |h now]; unfold step; simpl.
  - destruct debug; [done|]. rewrite initMixpanel_eq. simpl.
    destruct (quiet_attempt env
                (set_closures (closures s ++ [mkClosure token 0]) (set_debug false s))
                (length (closures s))) as (Hd' & extra & Hco & Hq).
    + by destruct s.
    + split; [done|]. exists extra. split; [|done]. rewrite Hco. by destruct s.
  - rewrite fire_timer_eq. destruct (timers s !! k) as [t|]; simpl.
    + destruct (quiet_attempt env (set_timers (delete k (timers s)) s) (tm_target t))
        as (Hd' & extra & Hco & Hq).
      * by destruct s.
      * split; [done|]. exists extra. split; [|done]. rewrite Hco. by destruct s.
    + split; [done|]. exists []. by rewrite app_nil_r.
  - apply Htrack.
  - split.
    + destruct (identifyUser_state env u props s) as (_ & Hd' & _). congruence.
    + destruct s as [d ini q cl tm sc co cbr]; simpl in Hd; subst d.
      unfold identifyUser. run_m. destruct ini; run_m; [|quiet_extra].
      destruct (sink_throws env sc _); run_m; [quiet_extra|].
      destruct props as [p|]; run_m; [|quiet_extra].
      destruct (sink_throws env _ _); run_m; quiet_extra.
  - split.
    + destruct (resetUser_state env s) as (_ & Hd' & _). congruence.
    + destruct s as [d ini q cl tm sc co cbr]; simpl in Hd; subst d.
      unfold resetUser. run_m. destruct ini; run_m; [|quiet_extra].
      destruct (sink_throws env sc _); run_m; quiet_extra.
  - rewrite call_helper_eq. apply Htrack.
Qed.

(** X13. Unless some [initMixpanel] call switches debug mode on, the module
    never calls [console.log]: whatever happens, all it writes to the console
    are the warnings of early identity calls and the errors of failed
    attempts, failed sends and failed drains. *)
Theorem console_is_quiet_without_debug (env : Env) (ops : list Op) :
  forallb (fun op => negb (enables_debug op)) ops = true ->
  mixpanelDebugMode (run env ops initial) = false /\
  Forall (fun l => is_debug_line l = false) (console (run env ops initial)).
Proof.
  induction ops as [|op ops IH] using rev_ind; intros Hall; [by split|].
  rewrite forallb_app in Hall. apply andb_prop in Hall as (Hops & Hop).
  simpl in Hop. rewrite andb_true_r in Hop. apply negb_true_iff in Hop.
  destruct (IH Hops) as (Hd & Hq). rewrite run_snoc.
  destruct (quiet_step env _ op Hd Hop) as (Hd' & extra & -> & Hextra).
  split; [done|]. apply Forall_app. by split.
Qed.

Lemma console_is_quiet_without_debug_witness :
  Forall (fun l => is_debug_line l = false)
    (console (run sink_ops_fail
                  [OpIdentify "u1" None; OpHelper TrackFeedbackButtonClicked noon;
                   OpInit "token" false; OpReset] initial)).
Proof.
  apply (console_is_quiet_without_debug sink_ops_fail
           [OpIdentify "u1" None; OpHelper TrackFeedbackButtonClicked noon;
            OpInit "token" false; OpReset]).
  reflexivity.
Defined.

(** ** The accepted events *)

(** One step appends to the pipeline the event it tracks, provided the module
    is ready or the queue has room, and nothing otherwise. *)
Lemma pipeline_step (env : Env) (s : State) (op : Op) :
  (mixpanelInitialized s = true -> eventBackupQueue s = []) ->
  pipeline (step env s op) =
    pipeline s ++
    match tracked_op env op with
    | Some ev =>
        if mixpanelInitialized s || (length (eventBackupQueue s) <? MAX_QUEUE_SIZE)%nat
        then [ev] else []
    | None => []
    end.
Proof.
  intros Hempty. unfold pipeline.
  destruct (step_effect env s op Hempty)
    as [(Hi & _ & Hq & Hd)|[(Hi & _ & Hd & Hq)|(Hi & _ & Ht & Hq & Hd)]].
  - rewrite Hd, Hq, Hi, (Hempty Hi), !app_nil_r. simpl.
    by destruct (tracked_op env op).
  - rewrite Hd, Hq, Hi, orb_false_l. destruct (tracked_op env op) as [ev|].
    + destruct (_ <? _)%nat; [by rewrite app_assoc|by rewrite app_nil_r].
    + by rewrite app_nil_r.
  - by rewrite Hd, Hq, Ht, !app_nil_r.
Qed.

Lemma pipeline_grows (env : Env) (ops more : list Op) :
  exists extra,
    pipeline (run env (ops ++ more) initial) = pipeline (run env ops initial) ++ extra /\
    sublist extra (tracked env more).
Proof.
  induction more as [|op more (extra & IH & Hsub)] using rev_ind.
  - exists []. by rewrite !app_nil_r.
  - rewrite app_assoc, run_snoc.
    destruct (run_invariant env (ops ++ more)) as (Hempty & _).
    rewrite (pipeline_step env _ op Hempty), IH, <- app_assoc.
    eexists. split; [done|]. rewrite tracked_snoc.
    apply sublist_app; [done|].
    destruct (tracked_op env op) as [ev|]; [|done].
    destruct (_ || _); [done|]. by apply sublist_nil_l.
Qed.

(** X15. Accepted events keep their place: whatever happens next, the events
    handed to the sink followed by the queued ones only ever grow at the end,
    by events tracked in the meantime.  In particular a queued event is never
    evicted or overtaken, and the drain moves the queue to the sink as it
    is. *)
Theorem accepted_events_keep_their_place (env : Env) (ops more : list Op) :
  exists extra,
    delivered (run env (ops ++ more) initial) ++ eventBackupQueue (run env (ops ++ more) initial) =
      (delivered (run env ops initial) ++ eventBackupQueue (run env ops initial)) ++ extra /\
    sublist extra (tracked env more).
Proof. exact (pipeline_grows env ops more). Qed.

(** ** The start-up code of the host application *)

Lemma app_effect_eq (env : Env) (token : string) (user_id : option string)
    (now : Now) (startTime : Z) (s : State) :
  app_effect env token user_id now startTime s =
  (Ok startTime,
   run env [OpInit token true; OpHelper (TrackSessionStart (user_type_of user_id)) now] s).
Proof.
  unfold app_effect, run, step, exec. simpl foldl.
  unfold mbind, M_bind, mret, M_ret, bind, ret. rewrite initMixpanel_eq. simpl.
  change (SessionEvents.trackSessionStart env (user_type_of user_id) now)
    with (call_helper env (TrackSessionStart (user_type_of user_id)) now).
  rewrite call_helper_eq.
  pose proof (trackEvent_result env SessionStarted
                (helper_payload env (TrackSessionStart (user_type_of user_id)) now)
                None now
                (after_initialize env
                   (set_closures (closures s ++ [mkClosure token 0]) (set_debug true s))
                   (length (closures s)))) as Hres.
  destruct (trackEvent _ _ _ _ _ _) as [r s']. simpl in Hres.
  rewrite Hres; [done|done].
Qed.

Lemma first_event_is_accepted (env : Env) (token : string) (debug : bool) (op : Op)
    (ev : QueuedEvent) :
  tracked_op env op = Some ev ->
  pipeline (run env [OpInit token debug; op] initial) = [ev].
Proof.
  intros Hev.
  change (run env [OpInit token debug; op] initial)
    with (step env (run env [OpInit token debug] initial) op).
  destruct (run_invariant env [OpInit token debug]) as (Hempty & Hwait & _).
  rewrite (pipeline_step env _ op Hempty), Hev.
  change (run env [OpInit token debug] initial)
    with (step env initial (OpInit token debug)) in *.
  rewrite (pipeline_step env initial (OpInit token debug)); [|done].
  simpl. destruct (mixpanelInitialized _) eqn:Hi; [done|].
  destruct (Hwait eq_refl) as (_ & ->). done.
Qed.

(** X16. The start-up code of the README (initialise in debug mode, then
    track the session start) ends normally and its [SessionStarted] event is
    always accepted, whatever the sink does: it is the first event queued or
    handed to the sink, ahead of everything tracked later, and carries the
    user type read from the stored user id.  The unload handler ends normally
    too, and its [SessionEnded] event, with the time since start-up as
    [duration], is appended unless the module is still waiting with a full
    queue. *)
Theorem app_session_is_tracked_in_order (env : Env) (token : string)
    (user_id : option string) (now : Now) (startTime : Z) (later : list Op)
    (historyLength : Z) (now' : Now) :
  let mount := app_effect env token user_id now startTime initial in
  let s := run env later (snd mount) in
  let unload := handleUnload env startTime historyLength now' s in
  fst mount = Ok startTime /\
  (exists rest,
     pipeline s =
       entry_of SessionStarted
         {[ "timestamp" := JStr (now_iso now);
            "user_type" := JStr (match user_id with
                                 | Some id => if String.eqb id "" then "Guest"
                                              else "Authenticated"
                                 | None => "Guest"
                                 end);
            "platform" := JStr (platform_of (userAgent env)) ]} now :: rest /\
     sublist rest (tracked env later)) /\
  fst unload = Ok tt /\
  pipeline (snd unload) =
    pipeline s ++
    (if mixpanelInitialized s || (length (eventBackupQueue s) <? MAX_QUEUE_SIZE)%nat
     then [entry_of SessionEnded
             {[ "duration" := JNum (now_ms now' - startTime);
                "pages_visited" := JNum historyLength ]} now']
     else []).
Proof.
  intros mount s unload. subst mount s unload. rewrite app_effect_eq.
  cbn [fst snd].
  set (ops0 := [OpInit token true; OpHelper (TrackSessionStart (user_type_of user_id)) now]).
  assert (Hrun : run env later (run env ops0 initial) = run env (ops0 ++ later) initial)
    by (unfold run; by rewrite foldl_app).
  rewrite Hrun. split; [done|]. split; [|split].
  - destruct (pipeline_grows env ops0 later) as (extra & -> & Hsub).
    exists extra. split; [|done]. unfold ops0.
    rewrite (first_event_is_accepted env token true
               (OpHelper (TrackSessionStart (user_type_of user_id)) now)
               (entry_of SessionStarted
                  (helper_payload env (TrackSessionStart (user_type_of user_id)) now)
                  now) eq_refl).
    unfold helper_payload, user_type_of.
    by destruct user_id as [id|]; [destruct (String.eqb id "")|].
  - unfold handleUnload, SessionEvents.trackSessionEnd. by apply trackEvent_result.
  - change (snd (handleUnload env startTime historyLength now' (run env (ops0 ++ later) initial)))
      with (step env (run env (ops0 ++ later) initial)
              (OpHelper (TrackSessionEnd startTime historyLength) now')).
    destruct (run_invariant env (ops0 ++ later)) as (Hempty & _).
    by rewrite (pipeline_step env _ _ Hempty).
Qed.
